(** * Motel.js: the guest record, its derived values and its description

    A shallow embedding of [WebDevelopment/Motel.js].  The script builds one
    object literal ([motelCustomer]), calls its two methods ([age] and
    [durationOfStay]) while it assembles a template literal
    ([customerDescription]), writes the text to the console and assigns it to
    the [textContent] of the element whose id is [customerInfo].

    The embedding follows the language definition where the script relies on
    it: the calendar functions of ECMAScript's "Time Values and Time Range"
    ([Day], [DayFromYear], [YearFromTime], [MonthFromTime], [DateFromTime],
    [LocalTime]), and IEEE 754 binary64 arithmetic (the Standard Library's
    [SpecFloat]) for the Number computation of [durationOfStay].

    What the host decides is a parameter: the offset of local time from UTC
    ([LocalTZA]), the rendering of [toLocaleDateString], the clock and the
    document.  The script is written in a state and exception monad over a
    store that holds the guest object, the clock, the console and the
    document, so that what an evaluation reads, writes and throws can be
    stated. *)

From Stdlib Require Import ZArith Lia Bool List String Ascii.
From Stdlib Require Import Floats.SpecFloat.
From Stdlib Require Import DecimalString.
From stdpp Require Import base gmap strings.

Local Open Scope Z_scope.

(** ** Time values and the calendar (ECMAScript, Time Values and Time Range) *)

Module Calendar.

Definition msPerDay : Z := 86400000.

(** [Day(t) = floor(t / msPerDay)]; [Z.div] rounds towards minus infinity. *)
Definition Day (t : Z) : Z := t / msPerDay.

Definition DaysInYear (y : Z) : Z :=
  if negb (y mod 4 =? 0) then 365
  else if negb (y mod 100 =? 0) then 366
  else if negb (y mod 400 =? 0) then 365
  else 366.

Definition DayFromYear (y : Z) : Z :=
  365 * (y - 1970) + (y - 1969) / 4 - (y - 1901) / 100 + (y - 1601) / 400.

Definition TimeFromYear (y : Z) : Z := msPerDay * DayFromYear y.

(** The language defines [YearFromTime(t)] as the largest integer [y] with
    [TimeFromYear(y) <= t].  It is computed here from the mean length of
    the Gregorian year (146097 days in 400 years), which is off by at most
    one year; [YearFromTime_spec] shows that the result is that largest
    integer. *)
Definition YearFromTime (t : Z) : Z :=
  let d := Day t in
  let y := 1970 + (400 * d) / 146097 in
  if DayFromYear (y + 1) <=? d then y + 1
  else if DayFromYear y <=? d then y
  else y - 1.

Definition InLeapYear (t : Z) : Z :=
  if DaysInYear (YearFromTime t) =? 365 then 0 else 1.

Definition DayWithinYear (t : Z) : Z := Day t - DayFromYear (YearFromTime t).

Definition MonthFromTime (t : Z) : Z :=
  let d := DayWithinYear t in
  let l := InLeapYear t in
  if d <? 31 then 0
  else if d <? 59 + l then 1
  else if d <? 90 + l then 2
  else if d <? 120 + l then 3
  else if d <? 151 + l then 4
  else if d <? 181 + l then 5
  else if d <? 212 + l then 6
  else if d <? 243 + l then 7
  else if d <? 273 + l then 8
  else if d <? 304 + l then 9
  else if d <? 334 + l then 10
  else 11.

Definition DateFromTime (t : Z) : Z :=
  let d := DayWithinYear t in
  let l := InLeapYear t in
  match MonthFromTime t with
  | 0 => d + 1
  | 1 => d - 30
  | 2 => d - 58 - l
  | 3 => d - 89 - l
  | 4 => d - 119 - l
  | 5 => d - 150 - l
  | 6 => d - 180 - l
  | 7 => d - 211 - l
  | 8 => d - 242 - l
  | 9 => d - 272 - l
  | 10 => d - 303 - l
  | _ => d - 333 - l
  end.

(** Days of the year before month [m] (0-based), [l] being 1 in a leap
    year: the left ends of the intervals of [MonthFromTime]. *)
Definition DaysBeforeMonth (m l : Z) : Z :=
  match m with
  | 0 => 0
  | 1 => 31
  | 2 => 59 + l
  | 3 => 90 + l
  | 4 => 120 + l
  | 5 => 151 + l
  | 6 => 181 + l
  | 7 => 212 + l
  | 8 => 243 + l
  | 9 => 273 + l
  | 10 => 304 + l
  | _ => 334 + l
  end.

(** [MakeDay(year, month, date)]: the day number of the given date, the
    month being 0-based and allowed to overflow into the years. *)
Definition MakeDay (year month date : Z) : Z :=
  let ym := year + month / 12 in
  let mn := month mod 12 in
  let l := if DaysInYear ym =? 365 then 0 else 1 in
  DayFromYear ym + DaysBeforeMonth mn l + date - 1.

Definition MakeDate (day time : Z) : Z := day * msPerDay + time.

(** The time range of a Date: 100,000,000 days on either side of the
    epoch. *)
Definition maxTime : Z := 8640000000000000.

Definition in_time_range (t : Z) : Prop := - maxTime <= t <= maxTime.

(** The lexicographic order on (month, date) pairs. *)
Definition md_lt (m d m' d' : Z) : Prop := m < m' \/ (m = m' /\ d < d').

End Calendar.

(** ** Numbers: IEEE 754 binary64 *)

Module JSNumber.

Definition prec : Z := 53.
Definition emax : Z := 1024.

(** A Number is a binary64 value; [SpecFloat] gives its arithmetic with
    the rounding to nearest, ties to even, that the language prescribes. *)
Definition Number : Type := spec_float.

(** The Number for a mathematical integer: the integer rounded to
    binary64 (exactly the integer when its magnitude is at most 2^53). *)
Definition of_Z (z : Z) : Number := binary_normalize prec emax z 0 false.

Definition sub (x y : Number) : Number := SFsub prec emax x y.
Definition mul (x y : Number) : Number := SFmul prec emax x y.
Definition div (x y : Number) : Number := SFdiv prec emax x y.

Definition Math_abs (x : Number) : Number := SFabs x.

(** [Math.ceil]: the smallest integral Number not below [x].  A finite
    value with a non-negative exponent is integral already; the ceiling of
    a value in (-1, 0) is the negative zero. *)
Definition Math_ceil (x : Number) : Number :=
  match x with
  | S754_finite s m e =>
      if 0 <=? e then x
      else
        let z := - ((- cond_Zopp s (Zpos m)) / 2 ^ (- e)) in
        if z =? 0 then S754_zero s else of_Z z
  | _ => x
  end.

(** The ceiling of the quotient of two integers. *)
Definition ceil_div (a b : Z) : Z := - ((- a) / b).

(** The integer that the Number for [n] denotes, for [0 <= n < 2^54]: [n]
    itself below 2^53, and beyond it [n] without its last bit, rounded to
    nearest with ties to the even mantissa. *)
Definition round_to_binary64 (n : Z) : Z :=
  if n <? 2 ^ 53 then n
  else 2 * round_nearest_even (n / 2) (if Z.odd n then loc_Inexact Eq else loc_Exact).

(** The mantissa of the Number 86400000 (its exponent is -26). *)
Definition day_mantissa : positive := 5798205849600000.

(** The integer a Number denotes, when it denotes one. *)
Definition integral_value (x : Number) : option Z :=
  match x with
  | S754_zero _ => Some 0
  | S754_finite s m e =>
      if 0 <=? e then Some (cond_Zopp s (Zpos m * 2 ^ e))
      else if Zpos m mod 2 ^ (- e) =? 0
           then Some (cond_Zopp s (Zpos m / 2 ^ (- e)))
           else None
  | _ => None
  end.

(** The decimal numeral of an integer, with a minus sign when negative. *)
Definition Z_toString (z : Z) : string := NilZero.string_of_int (Z.to_int z).

(** [Number::toString] on the Numbers whose string is a numeral of this
    kind: NaN, the infinities, and the integral values below 10^21 in
    magnitude, which print as decimal integers.  Every other finite value
    prints by the shortest-digits algorithm, which is not modelled:
    [None]. *)
Definition Number_toString (x : Number) : option string :=
  match x with
  | S754_nan => Some "NaN"%string
  | S754_infinity s => Some (if s then "-Infinity" else "Infinity")%string
  | _ =>
      match integral_value x with
      | Some z => if Z.abs z <? 10 ^ 21 then Some (Z_toString z) else None
      | None => None
      end
  end.

End JSNumber.

(** ** Date objects *)

Module JSDate.
Import Calendar JSNumber.

(** A Date object holds a time value: milliseconds since the epoch, UTC.
    Only valid dates are modelled (the language also has the invalid date,
    whose time value is NaN; the script creates none). *)
Record Date : Type := mkDate { DateValue : Z }.

Definition valid_date (d : Date) : Prop := in_time_range (DateValue d).

(** [new Date("YYYY-MM-DD")]: a date-only string denotes midnight UTC. *)
Definition Date_of_ISO_date (y m d : Z) : Date :=
  mkDate (MakeDate (MakeDay y (m - 1) d) 0).

(** [getTime()]: the time value as a Number. *)
Definition getTime (d : Date) : Number := of_Z (DateValue d).

Section LocalTime.
(** The host's offset of local time from UTC at the time value [t], in
    milliseconds. *)
Variable LocalTZA : Z -> Z.

Definition LocalTime (t : Z) : Z := t + LocalTZA t.

(** The calendar getters read the local time.  Their results are
    integers far below 2^53, on which the Number subtractions and
    comparisons of the script are exact: they are kept in [Z]. *)
Definition getFullYear (d : Date) : Z := YearFromTime (LocalTime (DateValue d)).
Definition getMonth (d : Date) : Z := MonthFromTime (LocalTime (DateValue d)).
Definition getDate (d : Date) : Z := DateFromTime (LocalTime (DateValue d)).

(** The local calendar day a Date falls on, as a day number. *)
Definition local_day (d : Date) : Z := Day (LocalTime (DateValue d)).
End LocalTime.

End JSDate.

(** ** The guest record *)

Module Motel.
Import Calendar JSNumber JSDate.
Local Open Scope string_scope.

Record MailingAddress : Type := mkMailingAddress {
  street : string;
  city : string;
  postalCode : string
}.

Record MotelCustomer : Type := mkMotelCustomer {
  name : string;
  birthDate : Date;
  gender : string;
  roomPreferences : list string;
  paymentMethod : string;
  mailingAddress : MailingAddress;
  phoneNumber : string;
  checkInDate : Date;
  checkOutDate : Date
}.

(** The object literal of the script. *)
Definition motelCustomer_literal : MotelCustomer :=
  {| name := "Steven Norris";
     birthDate := Date_of_ISO_date 1994 7 2;
     gender := "Male";
     roomPreferences := ["Double Bed"; "Pet-Friendly Status"];
     paymentMethod := "Pennies";
     mailingAddress :=
       {| street := "123 Duck St"; city := "St. John's"; postalCode := "A5A 1A3" |};
     phoneNumber := "709-987-6543";
     checkInDate := Date_of_ISO_date 2024 4 1;
     checkOutDate := Date_of_ISO_date 2024 4 15 |}.

(** A guest like the one of the script, with other dates of stay. *)
Definition with_stay (checkIn checkOut : Date) : MotelCustomer :=
  mkMotelCustomer (name motelCustomer_literal) (birthDate motelCustomer_literal)
    (gender motelCustomer_literal) (roomPreferences motelCustomer_literal)
    (paymentMethod motelCustomer_literal) (mailingAddress motelCustomer_literal)
    (phoneNumber motelCustomer_literal) checkIn checkOut.

(** A guest like the one of the script, born on another date. *)
Definition born_on (birth : Date) : MotelCustomer :=
  mkMotelCustomer (name motelCustomer_literal) birth
    (gender motelCustomer_literal) (roomPreferences motelCustomer_literal)
    (paymentMethod motelCustomer_literal) (mailingAddress motelCustomer_literal)
    (phoneNumber motelCustomer_literal) (checkInDate motelCustomer_literal)
    (checkOutDate motelCustomer_literal).

(** *** The state the script runs in *)

Record Element : Type := mkElement { textContent : string }.

Record Store : Type := mkStore {
  motelCustomer : MotelCustomer;      (* the object bound to [motelCustomer] *)
  clock : Z;                          (* the time value [new Date()] reads *)
  console : list string;              (* what [console.log] wrote, oldest first *)
  document : gmap string Element      (* the elements of the document, by id *)
}.

Inductive Error : Type := TypeError.

(** How an evaluation ends: with a value, with an exception, or outside
    the modelled fragment of the language ([Number_toString]). *)
Inductive Outcome (A : Type) : Type :=
| Returned (a : A)
| Thrown (e : Error)
| Unmodelled.
Arguments Returned {A} a.
Arguments Thrown {A} e.
Arguments Unmodelled {A}.

Definition JS (A : Type) : Type := Store -> Outcome A * Store.

Definition ret {A} (a : A) : JS A := fun st => (Returned a, st).

Definition bind {A B} (c : JS A) (k : A -> JS B) : JS B :=
  fun st =>
    match c st with
    | (Returned a, st') => k a st'
    | (Thrown e, st') => (Thrown e, st')
    | (Unmodelled, st') => (Unmodelled, st')
    end.

Notation "'do' x <- c1 ; c2" := (bind c1 (fun x => c2))
  (at level 10, x name, c1 at level 100, c2 at level 200).
Notation "'run' c1 ; c2" := (bind c1 (fun _ => c2))
  (at level 10, c1 at level 100, c2 at level 200).

(** Reading a property of the guest object: [this.f], [motelCustomer.f]. *)
Definition get {A} (f : MotelCustomer -> A) : JS A :=
  fun st => (Returned (f (motelCustomer st)), st).

(** [new Date()]: a Date for the current time. *)
Definition new_Date : JS Date := fun st => (Returned (mkDate (clock st)), st).

Definition of_option {A} (o : option A) : JS A :=
  fun st => match o with Some a => (Returned a, st) | None => (Unmodelled, st) end.

(** [console.log(s)] *)
Definition console_log (s : string) : JS unit :=
  fun st =>
    (Returned tt,
     mkStore (motelCustomer st) (clock st) (console st ++ [s]) (document st)).

(** [document.getElementById(id).textContent = s]: the lookup gives null
    when no element has the id, and the assignment to a property of null
    throws a TypeError. *)
Definition set_textContent_by_id (id s : string) : JS unit :=
  fun st =>
    match document st !! id with
    | Some _ =>
        (Returned tt,
         mkStore (motelCustomer st) (clock st) (console st)
                 (<[id := mkElement s]> (document st)))
    | None => (Thrown TypeError, st)
    end.

(** An evaluation that leaves the guest object as it found it. *)
Definition leaves_guest_unchanged {A} (c : JS A) : Prop :=
  forall st, motelCustomer (snd (c st)) = motelCustomer st.

(** [Array.prototype.join] on an array of strings. *)
Definition join (l : list string) (sep : string) : string := String.concat sep l.

Section Script.
Variable LocalTZA : Z -> Z.
(** [toLocaleDateString()]: the host's rendering of a date in its locale
    and time zone. *)
Variable toLocaleDateString : Date -> string.

(** [mailingAddress.toString()] *)
Definition mailingAddress_toString : JS string :=
  do s <- get (fun c => street (mailingAddress c));
  do c <- get (fun c => city (mailingAddress c));
  do p <- get (fun c => postalCode (mailingAddress c));
  ret (s ++ ", " ++ c ++ ", " ++ p).

(** [age()] *)
Definition age : JS Z :=
  do today <- new_Date;
  do b1 <- get birthDate;
  let age := (getFullYear LocalTZA today - getFullYear LocalTZA b1)%Z in
  do b2 <- get birthDate;
  let m := (getMonth LocalTZA today - getMonth LocalTZA b2)%Z in
  do b3 <- get birthDate;
  if (m <? 0)%Z || ((m =? 0)%Z && (getDate LocalTZA today <? getDate LocalTZA b3)%Z)
  then ret (age - 1)%Z
  else ret age.

(** [durationOfStay()] *)
Definition durationOfStay : JS Number :=
  do co <- get checkOutDate;
  do ci <- get checkInDate;
  let diffTime := Math_abs (sub (getTime co) (getTime ci)) in
  ret (Math_ceil
         (div diffTime (mul (mul (mul (of_Z 1000) (of_Z 60)) (of_Z 60)) (of_Z 24)))).

(** The template literal bound to [customerDescription]; its
    substitutions are evaluated from left to right. *)
Definition customerDescription : JS string :=
  do n <- get name;
  do a <- age;
  do g <- get gender;
  do prefs <- get roomPreferences;
  do ph <- get phoneNumber;
  do addr <- mailingAddress_toString;
  do ci <- get checkInDate;
  do co <- get checkOutDate;
  do d <- durationOfStay;
  do ds <- of_option (Number_toString d);
  ret ("Hello! I'm " ++ n ++ ", a " ++ Z_toString a ++ " year old " ++ g
       ++ " who prefers rooms with " ++ join prefs " and "
       ++ ". You can reach me at " ++ ph
       ++ ". My mailing address is " ++ addr
       ++ ". I'll be staying from " ++ toLocaleDateString ci
       ++ " to " ++ toLocaleDateString co
       ++ ", which is a duration of " ++ ds ++ " days.").

(** The statements of the script after the object literal. *)
Definition script : JS unit :=
  do description <- customerDescription;
  run console_log description;
  set_textContent_by_id "customerInfo" description.
End Script.

(** The store once the object literal has been evaluated, at time [now]
    in a document [doc], nothing written to the console yet. *)
Definition initial_store (now : Z) (doc : gmap string Element) : Store :=
  mkStore motelCustomer_literal now [] doc.

(** Two valid dates more than 2^53 milliseconds apart, by an odd number of
    milliseconds: the first instant of the time range (20 April -271821) and
    a millisecond into 8 February 13606. *)
Definition far_apart : Store :=
  mkStore (with_stay (mkDate (-8640000000000000)) (mkDate 367200000000001)) 0 [] ∅.

(** A host for examples: local time is UTC and dates print as
    month/day/year. *)
Definition UTC : Z -> Z := fun _ => 0%Z.

Definition month_day_year (LocalTZA : Z -> Z) (d : Date) : string :=
  Z_toString (getMonth LocalTZA d + 1) ++ "/" ++ Z_toString (getDate LocalTZA d)
  ++ "/" ++ Z_toString (getFullYear LocalTZA d).

(** The template as the specification words it, its nine placeholders
    filled in order, to compare the template literal of the script with. *)
Definition spec_template
    (name age gender prefs phone address checkIn checkOut duration : string) : string :=
  "Hello! I'm " ++ name ++ ", a " ++ age ++ " year old " ++ gender
  ++ " who prefers rooms with " ++ prefs ++ ". You can reach me at " ++ phone
  ++ ". My mailing address is " ++ address ++ ". I'll be staying from " ++ checkIn
  ++ " to " ++ checkOut ++ ", which is a duration of " ++ duration ++ " days.".

(** [s] occurs in [t]; [t] ends with [s]. *)
Definition contains (t s : string) : Prop := exists pre post, t = pre ++ s ++ post.
Definition ends_with (t s : string) : Prop := exists pre, t = pre ++ s.

End Motel.

(** ** Vocabulary for further properties *)

Module Statements.
Import Calendar JSNumber JSDate Motel.

(** The lexicographic order on calendar dates (year, month, date). *)
Definition date_le (y m d y' m' d' : Z) : Prop :=
  y < y' \/ (y = y' /\ (m < m' \/ (m = m' /\ d <= d'))).

(** 1 in a leap year, 0 otherwise. *)
Definition leap (y : Z) : Z := if DaysInYear y =? 365 then 0 else 1.

(** The days of month [m] (0-based), [l] being 1 in a leap year: the
    lengths of the intervals of [MonthFromTime]. *)
Definition DaysInMonth (m l : Z) : Z :=
  match m with
  | 1 => 28 + l
  | 3 | 5 | 8 | 10 => 30
  | _ => 31
  end.

(** The guest [c] with another payment method, with other room
    preferences. *)
Definition with_paymentMethod (c : MotelCustomer) (p : string) : MotelCustomer :=
  mkMotelCustomer (name c) (birthDate c) (gender c) (roomPreferences c) p
    (mailingAddress c) (phoneNumber c) (checkInDate c) (checkOutDate c).

Definition with_roomPreferences (c : MotelCustomer) (l : list string) : MotelCustomer :=
  mkMotelCustomer (name c) (birthDate c) (gender c) l (paymentMethod c)
    (mailingAddress c) (phoneNumber c) (checkInDate c) (checkOutDate c).

(** The store [st] with another guest. *)
Definition with_guest (st : Store) (c : MotelCustomer) : Store :=
  mkStore c (clock st) (console st) (document st).

End Statements.

(** * Facts *)

(** ** The calendar *)

Module CalendarFacts.
Import Calendar.

(** A year has [DaysInYear] days. *)
Lemma DayFromYear_succ y : DayFromYear (y + 1) = DayFromYear y + DaysInYear y.
Proof.
  unfold DayFromYear, DaysInYear.
  destruct (Z.eqb_spec (y mod 4) 0), (Z.eqb_spec (y mod 100) 0), (Z.eqb_spec (y mod 400) 0); cbn [negb];
  Z.div_mod_to_equations; lia.
Qed.

Lemma DaysInYear_range y : DaysInYear y = 365 \/ DaysInYear y = 366.
Proof. unfold DaysInYear. repeat destruct (negb _); auto. Qed.

(** [DayFromYear] grows with the year. *)
Lemma DayFromYear_lt y y' : y < y' -> DayFromYear y < DayFromYear y'.
Proof. unfold DayFromYear. intros. Z.div_mod_to_equations. lia. Qed.

Lemma DayFromYear_le y y' : y <= y' -> DayFromYear y <= DayFromYear y'.
Proof. unfold DayFromYear. intros. Z.div_mod_to_equations. lia. Qed.

(** The day of [t] lies in the year [YearFromTime t]. *)
Lemma YearFromTime_bounds t :
  DayFromYear (YearFromTime t) <= Day t < DayFromYear (YearFromTime t + 1).
Proof.
  unfold YearFromTime. set (d := Day t). cbv zeta.
  set (y := 1970 + 400 * d / 146097).
  assert (Hlo : DayFromYear (y - 1) <= d).
  { subst y. unfold DayFromYear. Z.div_mod_to_equations. lia. }
  assert (Hhi : d < DayFromYear (y + 2)).
  { subst y. unfold DayFromYear. Z.div_mod_to_equations. lia. }
  destruct (Z.leb_spec (DayFromYear (y + 1)) d).
  - replace (y + 1 + 1) with (y + 2) by lia. lia.
  - destruct (Z.leb_spec (DayFromYear y) d).
    + lia.
    + replace (y - 1 + 1) with y by lia. lia.
Qed.

(** ... and in no other year. *)
Lemma YearFromTime_unique t y :
  DayFromYear y <= Day t < DayFromYear (y + 1) -> YearFromTime t = y.
Proof.
  intros H. pose proof (YearFromTime_bounds t) as B.
  destruct (Z.lt_trichotomy (YearFromTime t) y) as [L | [E | G]]; [| exact E |].
  - pose proof (DayFromYear_le (YearFromTime t + 1) y ltac:(lia)). lia.
  - pose proof (DayFromYear_le (y + 1) (YearFromTime t) ltac:(lia)). lia.
Qed.

(** The language's own definition: the largest [y] with [TimeFromYear y <= t]. *)
Lemma YearFromTime_spec t :
  TimeFromYear (YearFromTime t) <= t /\
  forall y, TimeFromYear y <= t -> y <= YearFromTime t.
Proof.
  pose proof (YearFromTime_bounds t) as B. unfold TimeFromYear, Day, msPerDay in *.
  split.
  - Z.div_mod_to_equations. lia.
  - intros y Hy.
    destruct (Z.le_gt_cases y (YearFromTime t)) as [L | G]; [exact L |].
    pose proof (DayFromYear_le (YearFromTime t + 1) y ltac:(lia)).
    Z.div_mod_to_equations. lia.
Qed.

(** A later day is not in an earlier year. *)
Lemma YearFromTime_mono a b : Day a <= Day b -> YearFromTime a <= YearFromTime b.
Proof.
  intros H. pose proof (YearFromTime_bounds a). pose proof (YearFromTime_bounds b).
  destruct (Z.le_gt_cases (YearFromTime a) (YearFromTime b)) as [L | G]; [exact L |].
  pose proof (DayFromYear_le (YearFromTime b + 1) (YearFromTime a) ltac:(lia)). lia.
Qed.

Lemma InLeapYear_DaysInYear t : DaysInYear (YearFromTime t) = 365 + InLeapYear t.
Proof.
  unfold InLeapYear. destruct (DaysInYear_range (YearFromTime t)) as [E | E]; rewrite E; reflexivity.
Qed.

Lemma InLeapYear_range t : InLeapYear t = 0 \/ InLeapYear t = 1.
Proof. unfold InLeapYear. destruct (_ =? _); auto. Qed.

(** The day within the year is below the length of the year. *)
Lemma DayWithinYear_range t : 0 <= DayWithinYear t < 365 + InLeapYear t.
Proof.
  unfold DayWithinYear. pose proof (YearFromTime_bounds t) as B.
  rewrite DayFromYear_succ, InLeapYear_DaysInYear in B. lia.
Qed.

(** Months are 0 to 11, dates 1 to 31. *)
Lemma MonthFromTime_range t : 0 <= MonthFromTime t <= 11.
Proof. unfold MonthFromTime. cbv zeta. repeat destruct (_ <? _); lia. Qed.

Ltac month_cases :=
  repeat match goal with
         | |- context [?a <? ?b] => destruct (Z.ltb_spec a b)
         end.

Lemma DateFromTime_range t : 1 <= DateFromTime t <= 31.
Proof.
  pose proof (DayWithinYear_range t). pose proof (InLeapYear_range t).
  unfold DateFromTime, MonthFromTime. cbv zeta.
  month_cases; lia.
Qed.

(** The calendar date is the day number read in the mixed radix
    (year, month, date): reading it back with [MakeDay] gives the day. *)
Lemma MakeDay_fields t :
  MakeDay (YearFromTime t) (MonthFromTime t) (DateFromTime t) = Day t.
Proof.
  pose proof (DayWithinYear_range t) as R. pose proof (InLeapYear_range t) as L.
  pose proof (MonthFromTime_range t) as M.
  unfold MakeDay. cbv zeta.
  replace (MonthFromTime t / 12) with 0 by (Z.div_mod_to_equations; lia).
  replace (MonthFromTime t mod 12) with (MonthFromTime t) by (Z.div_mod_to_equations; lia).
  rewrite Z.add_0_r. fold (InLeapYear t).
  unfold DateFromTime, MonthFromTime in *. cbv zeta in *. unfold DayWithinYear in *.
  month_cases; cbn [DaysBeforeMonth]; lia.
Qed.

(** Same calendar day, same fields. *)
Lemma YearFromTime_Day a b : Day a = Day b -> YearFromTime a = YearFromTime b.
Proof. unfold YearFromTime. intros ->. reflexivity. Qed.

Lemma MonthFromTime_Day a b : Day a = Day b -> MonthFromTime a = MonthFromTime b.
Proof.
  intros H. unfold MonthFromTime, DayWithinYear, InLeapYear.
  rewrite (YearFromTime_Day a b H), H. reflexivity.
Qed.

Lemma DateFromTime_Day a b : Day a = Day b -> DateFromTime a = DateFromTime b.
Proof.
  intros H. unfold DateFromTime, DayWithinYear, InLeapYear.
  rewrite (MonthFromTime_Day a b H), (YearFromTime_Day a b H), H. reflexivity.
Qed.

(** Within one year the (month, date) pair grows with the day. *)
Lemma month_date_lt a b :
  YearFromTime a = YearFromTime b -> Day a < Day b ->
  md_lt (MonthFromTime a) (DateFromTime a) (MonthFromTime b) (DateFromTime b).
Proof.
  intros Hy Hd.
  pose proof (DayWithinYear_range a). pose proof (DayWithinYear_range b).
  assert (Hl : InLeapYear a = InLeapYear b) by (unfold InLeapYear; rewrite Hy; reflexivity).
  assert (Hw : DayWithinYear a < DayWithinYear b) by (unfold DayWithinYear; rewrite Hy; lia).
  pose proof (InLeapYear_range b).
  unfold md_lt, DateFromTime, MonthFromTime. cbv zeta. rewrite Hl in *.
  month_cases; lia.
Qed.

(** A day later is the next day. *)
Lemma Day_next t : Day (t + msPerDay) = Day t + 1.
Proof. unfold Day, msPerDay. Z.div_mod_to_equations. lia. Qed.

(** The day after: the same year, or the first of January of the next. *)
Lemma next_day_year t :
  YearFromTime (t + msPerDay) = YearFromTime t \/
  (YearFromTime (t + msPerDay) = YearFromTime t + 1 /\
   MonthFromTime (t + msPerDay) = 0 /\ DateFromTime (t + msPerDay) = 1).
Proof.
  pose proof (YearFromTime_bounds t) as B.
  destruct (Z.lt_ge_cases (Day t + 1) (DayFromYear (YearFromTime t + 1))) as [L | G].
  - left. apply YearFromTime_unique. rewrite Day_next. lia.
  - right.
    assert (Hy : YearFromTime (t + msPerDay) = YearFromTime t + 1).
    { apply YearFromTime_unique. rewrite Day_next.
      pose proof (DayFromYear_lt (YearFromTime t + 1) (YearFromTime t + 1 + 1) ltac:(lia)). lia. }
    assert (Hw : DayWithinYear (t + msPerDay) = 0).
    { unfold DayWithinYear. rewrite Hy, Day_next. lia. }
    pose proof (InLeapYear_range (t + msPerDay)).
    split; [exact Hy |].
    unfold DateFromTime, MonthFromTime. cbv zeta. rewrite Hw.
    split; reflexivity.
Qed.

End CalendarFacts.

(** ** Binary64 arithmetic on integers *)

Module NumberFacts.
Import Calendar JSNumber.

(** Powers of two. *)
Lemma pow2_step k : 0 <= k -> 2 ^ (k + 1) = 2 * 2 ^ k.
Proof. intros. rewrite Z.pow_add_r by lia. lia. Qed.

(** [digits2_pos p] is the number of bits of [p]. *)
Lemma digits2_pos_bounds p :
  2 ^ (Zpos (digits2_pos p) - 1) <= Zpos p < 2 ^ Zpos (digits2_pos p).
Proof.
  induction p as [p IH | p IH |]; cbn [digits2_pos].
  - rewrite Pos2Z.inj_succ, Pos2Z.inj_xI.
    replace (Z.succ (Zpos (digits2_pos p)) - 1) with (Zpos (digits2_pos p) - 1 + 1) by lia.
    replace (Z.succ (Zpos (digits2_pos p))) with (Zpos (digits2_pos p) - 1 + 1 + 1) by lia.
    replace (Zpos (digits2_pos p)) with (Zpos (digits2_pos p) - 1 + 1) in IH at 2 by lia.
    rewrite !pow2_step in * by lia. lia.
  - rewrite Pos2Z.inj_succ, Pos2Z.inj_xO.
    replace (Z.succ (Zpos (digits2_pos p)) - 1) with (Zpos (digits2_pos p) - 1 + 1) by lia.
    replace (Z.succ (Zpos (digits2_pos p))) with (Zpos (digits2_pos p) - 1 + 1 + 1) by lia.
    replace (Zpos (digits2_pos p)) with (Zpos (digits2_pos p) - 1 + 1) in IH at 2 by lia.
    rewrite !pow2_step in * by lia. lia.
  - cbn. lia.
Qed.

Lemma pow2_lt_inv a b : 0 <= a -> 0 <= b -> 2 ^ a < 2 ^ b -> a < b.
Proof. intros. apply (Z.pow_lt_mono_r_iff 2); lia. Qed.

Lemma digits2_pos_unique p d :
  2 ^ (d - 1) <= Zpos p < 2 ^ d -> Zpos (digits2_pos p) = d.
Proof.
  intros H. pose proof (digits2_pos_bounds p) as B.
  assert (0 < d).
  { destruct (Z.lt_ge_cases 0 d); [assumption |].
    destruct (Z.eq_dec d 0) as [-> | ]; [cbn in H; lia |].
    rewrite (Z.pow_neg_r 2 d) in H by lia. lia. }
  assert (Zpos (digits2_pos p) - 1 < d) by (apply pow2_lt_inv; lia).
  assert (d - 1 < Zpos (digits2_pos p)) by (apply pow2_lt_inv; lia).
  lia.
Qed.

(** The iterator of [SpecFloat], by the number of steps. *)
Lemma iter_pos_nat {A} (f : A -> A) n x :
  SpecFloat.iter_pos f n x = Nat.iter (Pos.to_nat n) f x.
Proof.
  revert x. induction n as [n IH | n IH |]; intros x; cbn [SpecFloat.iter_pos].
  - rewrite !IH, Pos2Nat.inj_xI. cbn [Nat.iter]. rewrite <- Nat.iter_succ_r.
    rewrite <- Nat.iter_add. f_equal. lia.
  - rewrite !IH, Pos2Nat.inj_xO. rewrite <- Nat.iter_add. f_equal. lia.
  - reflexivity.
Qed.

(** One step of the right shift: the mantissa is halved, the bit shifted out
    becomes the round bit and the old round bit joins the sticky bit. *)
Lemma shr_1_nonneg m r s :
  0 <= m -> shr_1 (Build_shr_record m r s) = Build_shr_record (m / 2) (Z.odd m) (r || s).
Proof.
  intros Hm. destruct m as [| [p | p |] | p]; try lia; cbn [shr_1].
  - reflexivity.
  - replace (Z.pos p~1 / 2) with (Z.pos p) by (rewrite Pos2Z.inj_xI; Z.div_mod_to_equations; lia).
    reflexivity.
  - replace (Z.pos p~0 / 2) with (Z.pos p) by (rewrite Pos2Z.inj_xO; Z.div_mod_to_equations; lia).
    reflexivity.
  - reflexivity.
Qed.

(** Shifting out [n] zero bits of an exact record. *)
Lemma shr_zeros n m :
  0 <= m ->
  Nat.iter n shr_1 (Build_shr_record (m * 2 ^ Z.of_nat n) false false)
  = Build_shr_record m false false.
Proof.
  intros Hm. induction n as [| n IH].
  - cbn [Nat.iter]. change (Z.of_nat 0) with 0. rewrite Z.pow_0_r, Z.mul_1_r. reflexivity.
  - assert (0 <= 2 ^ Z.of_nat n) by (apply Z.pow_nonneg; lia).
    rewrite Nat.iter_succ_r, Nat2Z.inj_succ, Z.pow_succ_r by lia.
    replace (m * (2 * 2 ^ Z.of_nat n)) with (2 * (m * 2 ^ Z.of_nat n)) by lia.
    rewrite shr_1_nonneg by nia.
    rewrite Z.odd_even, (Z.mul_comm 2), Z.div_mul by lia.
    exact IH.
Qed.

(** Appending [d] zero bits multiplies by [2^d]. *)
Lemma pos_iter_xO m d : Zpos (Pos.iter xO m d) = Zpos m * 2 ^ Zpos d.
Proof.
  induction d as [| d IH] using Pos.peano_ind.
  - cbn [Pos.iter]. rewrite Pos2Z.inj_xO. change (2 ^ 1) with 2. lia.
  - rewrite Pos.iter_succ, Pos2Z.inj_xO, IH, Pos2Z.inj_succ, Z.pow_succ_r by lia. lia.
Qed.

(** Alignment to a smaller exponent multiplies the mantissa by a power of two. *)
Lemma shl_align_value mx ex ex' :
  ex' <= ex ->
  shl_align mx ex ex' = (Z.to_pos (Zpos mx * 2 ^ (ex - ex')), ex').
Proof.
  intros H. unfold shl_align.
  destruct (ex' - ex) as [| d | d] eqn:E; try lia.
  - assert (ex' = ex) by lia. subst. rewrite Z.sub_diag, Z.pow_0_r, Z.mul_1_r. reflexivity.
  - assert (ex - ex' = Zpos d) as -> by lia.
    rewrite <- pos_iter_xO. reflexivity.
Qed.

Lemma Zdigits2_unique m d : 2 ^ (d - 1) <= m < 2 ^ d -> 0 < m -> Zdigits2 m = d.
Proof.
  intros H Hm. destruct m as [| p | p]; try lia.
  cbn [Zdigits2]. apply digits2_pos_unique. exact H.
Qed.

(** [shr] shifts by [n] steps. *)
Lemma shr_nat mrs e n :
  0 <= n -> shr mrs e n = (Nat.iter (Z.to_nat n) shr_1 mrs, e + n).
Proof.
  intros H. destruct n as [| p | p]; try lia; cbn [shr].
  - rewrite Z.add_0_r. reflexivity.
  - rewrite iter_pos_nat. reflexivity.
Qed.

(** The exponent of a normal number of magnitude [2^k]. *)
Lemma fexp_normal k : -1021 <= k -> fexp prec emax k = k - 53.
Proof. intros. unfold fexp, emin, prec, emax. lia. Qed.

(** The first shift of [binary_round_aux] on a mantissa of [d >= 53] bits brings
    it to 53 bits. *)
Lemma shr_fexp_normal m e l d :
  0 < m -> 2 ^ (d - 1) <= m < 2 ^ d -> 53 <= d -> -1021 <= d + e ->
  shr_fexp prec emax m e l
  = (Nat.iter (Z.to_nat (d - 53)) shr_1 (shr_record_of_loc m l), e + (d - 53)).
Proof.
  intros Hm Hd H53 He. unfold shr_fexp.
  rewrite (Zdigits2_unique m d Hd Hm), fexp_normal by lia.
  replace (d + e - 53 - e) with (d - 53) by lia.
  apply shr_nat. lia.
Qed.

(** The last steps of [binary_round_aux] on a mantissa that the first
    shift has brought to 53 bits and the rounding may have carried to 2^53. *)
Lemma binary_round_aux_finish s q e :
  2 ^ 52 <= q <= 2 ^ 53 -> -1021 <= 53 + e -> e + 1 <= 971 ->
  (let '(mrs, e'') := shr_fexp prec emax q e loc_Exact in
   match shr_m mrs with
   | Z0 => S754_zero s
   | Zpos m => if e'' <=? emax - prec then S754_finite s m e'' else S754_infinity s
   | Zneg _ => S754_nan
   end)
  = if q <? 2 ^ 53 then S754_finite s (Z.to_pos q) e
    else S754_finite s (Z.to_pos (2 ^ 52)) (e + 1).
Proof.
  intros Hq He1 He2.
  destruct (Z.ltb_spec q (2 ^ 53)) as [L | G].
  - rewrite (shr_fexp_normal q e loc_Exact 53) by lia.
    cbn [Z.sub Z.to_nat Nat.iter shr_record_of_loc shr_m]. change (53 - 53) with 0.
    cbn [Z.to_nat Nat.iter]. cbn [shr_record_of_loc shr_m].
    destruct q as [| p | p]; try lia.
    rewrite Z.add_0_r. unfold emax, prec.
    destruct (Z.leb_spec e (1024 - 53)); [reflexivity | lia].
  - assert (q = 2 ^ 53) as -> by lia.
    rewrite (shr_fexp_normal (2 ^ 53) e loc_Exact 54) by (cbn; lia).
    change (54 - 53) with 1. cbn [Z.to_nat Pos.to_nat Pos.iter_op Nat.iter shr_record_of_loc].
    rewrite shr_1_nonneg by (cbn; lia). cbn [shr_m].
    change (2 ^ 53 / 2) with (2 ^ 52). change (2 ^ 52) with (Zpos (Z.to_pos (2 ^ 52))) at 1.
    cbv iota beta. unfold emax, prec.
    destruct (Z.leb_spec (e + 1) (1024 - 53)); [reflexivity | lia].
Qed.

(** [n] steps of the right shift divide the mantissa by [2^n]. *)
Lemma shr_m_iter n m r s :
  0 <= m ->
  shr_m (Nat.iter n shr_1 (Build_shr_record m r s)) = m / 2 ^ Z.of_nat n.
Proof.
  intros Hm. revert m r s Hm. induction n as [| n IH]; intros m r s Hm.
  - cbn [Nat.iter shr_m]. change (Z.of_nat 0) with 0. rewrite Z.pow_0_r, Z.div_1_r. reflexivity.
  - rewrite Nat.iter_succ_r, shr_1_nonneg by lia.
    rewrite IH by (apply Z.div_pos; lia).
    rewrite Nat2Z.inj_succ, Z.pow_succ_r by lia.
    rewrite Z.div_div by (try apply Z.pow_pos_nonneg; lia). reflexivity.
Qed.

(** Rounding keeps the mantissa or adds one. *)
Lemma round_nearest_even_bounds q l : q <= round_nearest_even q l <= q + 1.
Proof. destruct l as [| []]; cbn [round_nearest_even]; try destruct (Z.even q); lia. Qed.

Lemma shr_record_of_loc_eta m l :
  shr_record_of_loc m l
  = Build_shr_record m (shr_r (shr_record_of_loc m l)) (shr_s (shr_record_of_loc m l)).
Proof. destruct l as [| []]; reflexivity. Qed.

(** [binary_round_aux] on a positive mantissa of [d >= 53] bits: shift out
    [d - 53] bits, round to nearest-even, renormalise after a carry. *)
Lemma binary_round_aux_eq s mx ex lx d :
  2 ^ (d - 1) <= mx < 2 ^ d -> 53 <= d -> -1021 <= d + ex -> ex + (d - 53) + 1 <= 971 ->
  binary_round_aux prec emax s mx ex lx =
    let mrs := Nat.iter (Z.to_nat (d - 53)) shr_1 (shr_record_of_loc mx lx) in
    let q := round_nearest_even (shr_m mrs) (loc_of_shr_record mrs) in
    if q <? 2 ^ 53 then S754_finite s (Z.to_pos q) (ex + (d - 53))
    else S754_finite s (Z.to_pos (2 ^ 52)) (ex + (d - 53) + 1).
Proof.
  intros Hd H53 Hlo Hhi.
  assert (Hpos : 0 < 2 ^ (d - 1)) by (apply Z.pow_pos_nonneg; lia).
  unfold binary_round_aux.
  rewrite (shr_fexp_normal mx ex lx d) by lia.
  cbv zeta.
  set (mrs := Nat.iter (Z.to_nat (d - 53)) shr_1 (shr_record_of_loc mx lx)).
  assert (Hm : shr_m mrs = mx / 2 ^ (d - 53)).
  { subst mrs. rewrite shr_record_of_loc_eta, shr_m_iter by lia.
    rewrite Z2Nat.id by lia. reflexivity. }
  assert (Hq : 2 ^ 52 <= shr_m mrs < 2 ^ 53).
  { rewrite Hm.
    assert (E : 2 ^ d = 2 ^ 53 * 2 ^ (d - 53)) by (rewrite <- Z.pow_add_r by lia; f_equal; lia).
    assert (E' : 2 ^ (d - 1) = 2 ^ 52 * 2 ^ (d - 53)) by (rewrite <- Z.pow_add_r by lia; f_equal; lia).
    assert (0 < 2 ^ (d - 53)) by (apply Z.pow_pos_nonneg; lia).
    split.
    - apply Z.div_le_lower_bound; lia.
    - apply Z.div_lt_upper_bound; lia. }
  pose proof (round_nearest_even_bounds (shr_m mrs) (loc_of_shr_record mrs)).
  apply binary_round_aux_finish; lia.
Qed.

Lemma pow2_pos k : 0 <= k -> 0 < 2 ^ k.
Proof. intros. apply Z.pow_pos_nonneg; lia. Qed.

Lemma pow2_split a b : 0 <= a -> 0 <= b -> 2 ^ (a + b) = 2 ^ a * 2 ^ b.
Proof. intros. apply Z.pow_add_r; lia. Qed.

(** A positive integer [z] of [d <= 53] bits, given as [z * 2^j] with the
    exponent [-j], normalises to the 53-bit mantissa [z * 2^(53 - d)]. *)
Lemma binary_round_scaled_small s z j d :
  2 ^ (d - 1) <= z < 2 ^ d -> 1 <= d <= 53 -> 0 <= j <= 900 ->
  binary_round prec emax s (Z.to_pos (z * 2 ^ j)) (- j)
  = S754_finite s (Z.to_pos (z * 2 ^ (53 - d))) (d - 53).
Proof.
  intros Hd Hd53 Hj.
  pose proof (pow2_pos (d - 1) ltac:(lia)) as P1.
  pose proof (pow2_pos j ltac:(lia)) as Pj.
  pose proof (pow2_pos (53 - d) ltac:(lia)) as P53.
  assert (Hz : 0 < z) by lia.
  assert (Hzj : 0 < z * 2 ^ j) by nia.
  assert (Hdig : Zpos (digits2_pos (Z.to_pos (z * 2 ^ j))) = d + j).
  { apply digits2_pos_unique. rewrite Z2Pos.id by lia.
    replace (d + j - 1) with ((d - 1) + j) by lia.
    rewrite !pow2_split by lia. nia. }
  assert (Hn : 2 ^ (53 - 1) <= z * 2 ^ (53 - d) < 2 ^ 53).
  { assert (E1 : 2 ^ (53 - 1) = 2 ^ (d - 1) * 2 ^ (53 - d))
      by (rewrite <- pow2_split by lia; f_equal; lia).
    assert (E2 : 2 ^ 53 = 2 ^ d * 2 ^ (53 - d))
      by (rewrite <- pow2_split by lia; f_equal; lia).
    rewrite E1, E2. split.
    - apply Z.mul_le_mono_nonneg_r; lia.
    - apply Z.mul_lt_mono_pos_r; lia. }
  unfold binary_round. rewrite Hdig.
  replace (d + j + - j) with d by lia. rewrite fexp_normal by lia.
  destruct (Z.le_gt_cases (d - 53) (- j)) as [L | G].
  - rewrite shl_align_value by lia.
    assert (Em : Zpos (Z.to_pos (z * 2 ^ j)) * 2 ^ (- j - (d - 53)) = z * 2 ^ (53 - d)).
    { rewrite Z2Pos.id by lia.
      rewrite <- Z.mul_assoc, <- pow2_split by lia. do 2 f_equal. lia. }
    rewrite Em, Z2Pos.id by lia.
    rewrite (binary_round_aux_eq s _ _ _ 53).
    2: exact Hn. 2-4: lia.
    cbv zeta. change (Z.to_nat (53 - 53)) with 0%nat.
    unfold Nat.iter. cbn [nat_rect shr_record_of_loc shr_m loc_of_shr_record round_nearest_even].
    destruct (Z.ltb_spec (z * 2 ^ (53 - d)) (2 ^ 53)); [| lia].
    rewrite Z.add_0_r. reflexivity.
  - unfold shl_align. destruct (d - 53 - - j) as [| p | p] eqn:E; try lia.
    rewrite Z2Pos.id by lia.
    rewrite (binary_round_aux_eq s _ _ _ (d + j)).
    2:{ replace (d + j - 1) with ((d - 1) + j) by lia. rewrite !pow2_split by lia. nia. }
    2-4: lia.
    cbn [shr_record_of_loc]. cbv zeta.
    replace (z * 2 ^ j) with (z * 2 ^ (53 - d) * 2 ^ Z.of_nat (Z.to_nat (d + j - 53))).
    2:{ rewrite Z2Nat.id by lia. rewrite <- Z.mul_assoc, <- pow2_split by lia. do 2 f_equal. lia. }
    rewrite shr_zeros by lia.
    cbn [shr_m loc_of_shr_record round_nearest_even].
    destruct (Z.ltb_spec (z * 2 ^ (53 - d)) (2 ^ 53)); [| lia].
    f_equal. lia.
Qed.

(** The same for an integer of 54 bits, which loses its last bit. *)
Lemma binary_round_scaled_54 s z j :
  2 ^ 53 <= z < 2 ^ 54 -> 0 <= j <= 900 ->
  binary_round prec emax s (Z.to_pos (z * 2 ^ j)) (- j)
  = let q := round_nearest_even (z / 2) (if Z.odd z then loc_Inexact Eq else loc_Exact) in
    if q <? 2 ^ 53 then S754_finite s (Z.to_pos q) 1
    else S754_finite s (Z.to_pos (2 ^ 52)) 2.
Proof.
  intros Hz Hj.
  pose proof (pow2_pos j ltac:(lia)) as Pj.
  assert (Hzj : 0 < z * 2 ^ j) by nia.
  assert (Hb : 2 ^ (54 + j - 1) <= z * 2 ^ j < 2 ^ (54 + j)).
  { replace (54 + j - 1) with (53 + j) by lia. rewrite !pow2_split by lia.
    split; [apply Z.mul_le_mono_nonneg_r | apply Z.mul_lt_mono_pos_r]; lia. }
  assert (Hdig : Zpos (digits2_pos (Z.to_pos (z * 2 ^ j))) = 54 + j).
  { apply digits2_pos_unique. rewrite Z2Pos.id by lia. exact Hb. }
  unfold binary_round. rewrite Hdig.
  replace (54 + j + - j) with 54 by lia. rewrite fexp_normal by lia.
  unfold shl_align. destruct (54 - 53 - - j) as [| p | p] eqn:E; try lia.
  rewrite Z2Pos.id by lia.
  rewrite (binary_round_aux_eq s _ _ _ (54 + j)) by (exact Hb || lia).
  cbv zeta. cbn [shr_record_of_loc].
  replace (Z.to_nat (54 + j - 53)) with (S (Z.to_nat j)) by lia.
  cbn [Nat.iter nat_rect]. unfold Nat.iter.
  cbn [nat_rect]. fold (Nat.iter (Z.to_nat j) shr_1 (Build_shr_record (z * 2 ^ j) false false)).
  replace (z * 2 ^ j) with (z * 2 ^ Z.of_nat (Z.to_nat j)) by (rewrite Z2Nat.id by lia; reflexivity).
  rewrite shr_zeros by lia. rewrite shr_1_nonneg by lia.
  cbn [shr_m loc_of_shr_record orb].
  replace (- j + (54 + j - 53)) with 1 by lia. change (1 + 1) with 2.
  destruct (Z.odd z); reflexivity.
Qed.

(** The result of [binary_round] depends on the value only. *)
Lemma binary_round_scaled s z j :
  0 < z < 2 ^ 54 -> 0 <= j <= 900 ->
  binary_round prec emax s (Z.to_pos (z * 2 ^ j)) (- j)
  = binary_round prec emax s (Z.to_pos z) 0.
Proof.
  intros Hz Hj.
  assert (Z0 : z * 2 ^ 0 = z) by (rewrite Z.pow_0_r; lia).
  destruct (Z.lt_ge_cases z (2 ^ 53)) as [L | G].
  - destruct z as [| p | p]; try lia.
    pose proof (digits2_pos_bounds p) as B.
    assert (Zpos (digits2_pos p) <= 53).
    { destruct (Z.le_gt_cases (Zpos (digits2_pos p)) 53) as [? | C]; [assumption |].
      assert (2 ^ 53 <= 2 ^ (Zpos (digits2_pos p) - 1)) by (apply Z.pow_le_mono_r; lia). lia. }
    rewrite (binary_round_scaled_small s _ j (Zpos (digits2_pos p))) by lia.
    pose proof (binary_round_scaled_small s (Zpos p) 0 (Zpos (digits2_pos p))
                  ltac:(lia) ltac:(lia) ltac:(lia)) as R0.
    rewrite Z0 in R0. change (- 0) with 0 in R0. rewrite R0. reflexivity.
  - rewrite binary_round_scaled_54 by lia.
    pose proof (binary_round_scaled_54 s z 0 ltac:(lia) ltac:(lia)) as R0.
    rewrite Z0 in R0. change (- 0) with 0 in R0. rewrite R0. reflexivity.
Qed.

(** [binary_normalize] of a non-zero integer rounds its magnitude, under its
    sign. *)
Lemma binary_normalize_nonzero z e :
  z <> 0 ->
  binary_normalize prec emax z e false
  = binary_round prec emax (z <? 0) (Z.to_pos (Z.abs z)) e.
Proof. destruct z; [lia | reflexivity | reflexivity]. Qed.

(** [Zdigits2 z] is the number of bits of the magnitude of [z]. *)
Lemma Zdigits2_bounds z : z <> 0 -> 2 ^ (Zdigits2 z - 1) <= Z.abs z < 2 ^ Zdigits2 z.
Proof. destruct z as [| p | p]; [lia | |]; intros _; apply digits2_pos_bounds. Qed.

Lemma Zdigits2_le_53 z : z <> 0 -> Z.abs z < 2 ^ 53 -> 1 <= Zdigits2 z <= 53.
Proof.
  intros Hz H. pose proof (Zdigits2_bounds z Hz) as B.
  split.
  - destruct z; cbn [Zdigits2]; lia.
  - destruct (Z.le_gt_cases (Zdigits2 z) 53) as [? | C]; [assumption |].
    assert (2 ^ 53 <= 2 ^ (Zdigits2 z - 1)) by (apply Z.pow_le_mono_r; lia). lia.
Qed.

(** The binary64 form of a non-zero integer below 2^53 in magnitude. *)
Lemma of_Z_small z :
  z <> 0 -> Z.abs z < 2 ^ 53 ->
  of_Z z = S754_finite (z <? 0) (Z.to_pos (Z.abs z * 2 ^ (53 - Zdigits2 z))) (Zdigits2 z - 53).
Proof.
  intros Hz H. unfold of_Z. rewrite binary_normalize_nonzero by assumption.
  pose proof (binary_round_scaled_small (z <? 0) (Z.abs z) 0 (Zdigits2 z)
                (Zdigits2_bounds z Hz) (Zdigits2_le_53 z Hz H) ltac:(lia)) as R.
  rewrite Z.pow_0_r, Z.mul_1_r in R. exact R.
Qed.

(** Sign and magnitude. *)
Lemma cond_Zopp_abs z : cond_Zopp (z <? 0) (Z.abs z) = z.
Proof. unfold cond_Zopp. destruct (Z.ltb_spec z 0); lia. Qed.

Lemma cond_Zopp_mul b x y : cond_Zopp b (x * y) = cond_Zopp b x * y.
Proof. destruct b; cbn [cond_Zopp]; lia. Qed.

Lemma ltb_mul_pos x p : 0 < p -> (x * p <? 0) = (x <? 0).
Proof. intros Hp. destruct (Z.ltb_spec x 0), (Z.ltb_spec (x * p) 0); nia. Qed.

(** The mantissa of [of_Z z], aligned to a smaller exponent [ez]. *)
Lemma aligned_mantissa z d ez :
  2 ^ (d - 1) <= Z.abs z < 2 ^ d -> 1 <= d <= 53 -> ez <= d - 53 ->
  Zpos (Z.to_pos (Zpos (Z.to_pos (Z.abs z * 2 ^ (53 - d))) * 2 ^ (d - 53 - ez)))
  = Z.abs z * 2 ^ (- ez).
Proof.
  intros Hb Hd He.
  pose proof (pow2_pos (d - 1) ltac:(lia)). pose proof (pow2_pos (53 - d) ltac:(lia)).
  pose proof (pow2_pos (d - 53 - ez) ltac:(lia)). pose proof (pow2_pos (- ez) ltac:(lia)).
  assert (0 < Z.abs z) by lia.
  rewrite (Z2Pos.id (Z.abs z * _)) by (apply Z.mul_pos_pos; lia).
  rewrite <- Z.mul_assoc, <- pow2_split by lia.
  replace (53 - d + (d - 53 - ez)) with (- ez) by lia.
  apply Z2Pos.id. apply Z.mul_pos_pos; lia.
Qed.

(** Subtraction of two integers below 2^53 in magnitude: the exact
    difference, rounded once. *)
Lemma sub_of_Z a b :
  Z.abs a < 2 ^ 53 -> Z.abs b < 2 ^ 53 -> sub (of_Z a) (of_Z b) = of_Z (a - b).
Proof.
  intros Ha Hb.
  destruct (Z.eq_dec a 0) as [-> | Na]; destruct (Z.eq_dec b 0) as [-> | Nb].
  - reflexivity.
  - rewrite (of_Z_small b), (of_Z_small (0 - b)) by lia.
    change (of_Z 0) with (S754_zero false). cbn [sub SFsub].
    replace (0 - b) with (- b) by lia. rewrite Z.abs_opp.
    replace (Zdigits2 (- b)) with (Zdigits2 b) by (destruct b; reflexivity).
    replace (- b <? 0) with (negb (b <? 0)); [reflexivity |].
    destruct (Z.ltb_spec b 0), (Z.ltb_spec (- b) 0); cbn [negb]; lia.
  - rewrite Z.sub_0_r. rewrite (of_Z_small a) by lia. reflexivity.
  - rewrite (of_Z_small a), (of_Z_small b) by lia.
    pose proof (Zdigits2_le_53 a Na Ha) as Da. pose proof (Zdigits2_le_53 b Nb Hb) as Db.
    pose proof (Zdigits2_bounds a Na) as Ba. pose proof (Zdigits2_bounds b Nb) as Bb.
    set (da := Zdigits2 a) in *. set (db := Zdigits2 b) in *.
    unfold sub. cbn [SFsub].
    set (ez := Z.min (da - 53) (db - 53)).
    assert (Hez : ez <= da - 53 /\ ez <= db - 53 /\ -52 <= ez <= 0) by (subst ez; lia).
    clearbody ez.
    rewrite !shl_align_value by lia. cbn [fst].
    rewrite (aligned_mantissa a da ez), (aligned_mantissa b db ez) by lia.
    rewrite !cond_Zopp_mul, !cond_Zopp_abs, <- Z.mul_sub_distr_r.
    pose proof (pow2_pos (- ez) ltac:(lia)) as Pe.
    destruct (Z.eq_dec (a - b) 0) as [E0 | N0].
    + rewrite E0. reflexivity.
    + unfold of_Z.
      rewrite !binary_normalize_nonzero by (try apply Z.neq_mul_0; auto; lia).
      rewrite ltb_mul_pos by exact Pe.
      rewrite Z.abs_mul, (Z.abs_eq (2 ^ (- ez))) by lia.
      replace ez with (- (- ez)) at 2 by lia.
      apply binary_round_scaled; [| lia].
      change (2 ^ 54) with (2 ^ 53 + 2 ^ 53). lia.
Qed.

(** The ceiling of [G / P], from its two bounds. *)
Lemma ceil_unique G P k : 0 < P -> (k - 1) * P < G <= k * P -> - ((- G) / P) = k.
Proof.
  intros HP H. enough ((- G) / P = - k) by lia.
  symmetry. apply (Z.div_unique_pos (- G) P (- k) (k * P - G)); lia.
Qed.

Lemma loc_of_shr_record_of_loc m l : loc_of_shr_record (shr_record_of_loc m l) = l.
Proof. destruct l as [| []]; reflexivity. Qed.

(** The product [1000 * 60 * 60 * 24] of the script is the Number 86400000. *)
Lemma msPerDay_Number :
  mul (mul (mul (of_Z 1000) (of_Z 60)) (of_Z 60)) (of_Z 24)
  = S754_finite false day_mantissa (-26).
Proof. vm_compute. reflexivity. Qed.

(** The arithmetic behind [ceil_div_day]: the quotient [q] of the scaled
    division lies strictly above [(k - 1) * P] and below [k * P], [k] being
    the ceiling of [V / 86400000]. *)
Lemma quotient_bounds V P q r k :
  0 < V -> 2 ^ 26 <= P -> (2 ^ 27 <= P \/ Z.even V = true) ->
  V * P * 2 ^ 26 = q * (86400000 * 2 ^ 26) + r -> 0 <= r < 86400000 * 2 ^ 26 ->
  (k - 1) * 86400000 < V <= k * 86400000 ->
  (k - 1) * P + 1 <= q /\ q <= k * P /\
  (r = 0 -> (k - 1) * P + 2 <= q) /\
  (q = k * P -> r = 0) /\
  (q <= k * P - 1 \/ (q = k * P /\ r = 0)).
Proof.
  intros HV HP Hev Hdiv Hr Hk.
  change (2 ^ 26) with 67108864 in *. change (2 ^ 27) with 134217728 in *.
  assert (Hrho : 86400000 < (V - (k - 1) * 86400000) * P).
  { destruct Hev as [HP' | Hev].
    - nia.
    - apply Z.even_spec in Hev. destruct Hev as [v ->]. nia. }
  assert (H1 : ((k - 1) * P) * 86400000 < V * P) by nia.
  assert (H2 : V * P <= (k * P) * 86400000) by nia.
  assert (H3 : V < k * 86400000 -> V * P <= (k * P) * 86400000 - P) by nia.
  assert (H4 : 86400000 < V * P - ((k - 1) * P) * 86400000) by nia.
  set (kP := k * P) in *. set (VP := V * P) in *.
  replace ((k - 1) * P) with (kP - P) in * by (subst kP; lia).
  destruct (Z.eq_dec V (k * 86400000)) as [E | N].
  - assert (VP = kP * 86400000) by (subst VP kP; rewrite E; lia).
    lia.
  - assert (V < k * 86400000) by lia. specialize (H3 ltac:(assumption)). lia.
Qed.

(** [Math.ceil] of a positive Number with a fraction part, from the bounds of
    its mantissa. *)
Lemma Math_ceil_pos mz ez k :
  0 < mz -> ez < 0 -> (k - 1) * 2 ^ (- ez) < mz <= k * 2 ^ (- ez) ->
  Math_ceil (S754_finite false (Z.to_pos mz) ez) = of_Z k.
Proof.
  intros Hm He Hk. pose proof (pow2_pos (- ez) ltac:(lia)) as HP.
  unfold Math_ceil. destruct (Z.leb_spec 0 ez); [lia |].
  cbn [cond_Zopp]. rewrite Z2Pos.id by lia. cbv zeta.
  rewrite (ceil_unique mz (2 ^ (- ez)) k HP Hk).
  destruct (Z.eqb_spec k 0) as [-> | ]; [lia | reflexivity].
Qed.

Lemma shr_sticky_of_loc m l :
  shr_r (shr_record_of_loc m l) || shr_s (shr_record_of_loc m l)
  = match l with loc_Exact => false | _ => true end.
Proof. destruct l as [| []]; reflexivity. Qed.

(** The Number of a positive integer [V] (mantissa [m], exponent [e]) divided
    by 86400000 and rounded up is the Number of the ceiling of
    [V / 86400000]: the rounding of the quotient never reaches the integer
    below it. *)
Lemma ceil_div_day m e V :
  2 ^ 52 <= m < 2 ^ 53 -> -52 <= e <= 1 -> 0 < V ->
  m * 2 ^ 27 = V * 2 ^ (27 - e) -> (e = 1 -> Z.even V = true) ->
  Math_ceil (div (S754_finite false (Z.to_pos m) e) (S754_finite false day_mantissa (-26)))
  = of_Z (- ((- V) / 86400000)).
Proof.
  intros Hm He HV HmV Hev.
  set (k := - ((- V) / 86400000)).
  assert (Hk : (k - 1) * 86400000 < V <= k * 86400000).
  { subst k. Z.div_mod_to_equations. lia. }
  assert (Hk1 : 1 <= k) by lia.
  set (P := 2 ^ (27 - e)) in *.
  assert (HP : 2 ^ 26 <= P) by (subst P; apply Z.pow_le_mono_r; lia).
  assert (HP' : 2 ^ 27 <= P \/ Z.even V = true).
  { destruct (Z.eq_dec e 1) as [E | N]; [right; auto | left; subst P; apply Z.pow_le_mono_r; lia]. }
  unfold div. cbn [SFdiv xorb]. unfold SFdiv_core_binary.
  assert (Hd1 : Zdigits2 (Zpos (Z.to_pos m)) = 53).
  { cbn [Zdigits2]. apply digits2_pos_unique. rewrite Z2Pos.id by lia. exact Hm. }
  rewrite Hd1. change (Zdigits2 (Zpos day_mantissa)) with 53.
  replace (53 + e - (53 + -26)) with (e + 26) by lia.
  rewrite fexp_normal by lia.
  replace (Z.min (e + 26 - 53) (e - -26)) with (e - 27) by lia.
  replace (e - -26 - (e - 27)) with 53 by lia.
  rewrite Z2Pos.id, Z.shiftl_mul_pow2 by lia.
  pose proof (Z_div_mod (m * 2 ^ 53) (Zpos day_mantissa) eq_refl) as DM.
  change IntDef.Z.div_eucl with Z.div_eucl.
  destruct (Z.div_eucl (m * 2 ^ 53) (Z.pos day_mantissa)) as [q r].
  destruct DM as [DM Hr].
  unfold new_location. change (Z.even (Z.pos day_mantissa)) with true. cbv iota.
  unfold new_location_even.
  change (Z.pos day_mantissa) with (86400000 * 2 ^ 26) in *.
  assert (Hdiv : V * P * 2 ^ 26 = q * (86400000 * 2 ^ 26) + r).
  { rewrite <- HmV. rewrite <- Z.mul_assoc. change (2 ^ 27 * 2 ^ 26) with (2 ^ 53). lia. }
  destruct (quotient_bounds V P q r k HV HP HP' Hdiv Hr Hk) as (Q1 & Q2 & Q3 & Q4 & Q5).
  assert (Hq : 2 ^ 52 <= q < 2 ^ 54).
  { change (2 ^ 52) with 4503599627370496 in *. change (2 ^ 53) with 9007199254740992 in *.
    change (2 ^ 54) with 18014398509481984. change (2 ^ 26) with 67108864 in *. lia. }
  assert (HP2 : P = 2 * 2 ^ (26 - e)).
  { subst P. replace (27 - e) with (26 - e + 1) by lia. apply pow2_step. lia. }
  assert (HP4 : P = 4 * 2 ^ (25 - e)).
  { rewrite HP2. replace (26 - e) with (25 - e + 1) by lia. rewrite pow2_step by lia. lia. }
  set (l := if r =? 0 then loc_Exact else loc_Inexact (2 * r ?= 86400000 * 2 ^ 26)).
  assert (Hl : r = 0 -> l = loc_Exact) by (intros ->; reflexivity).
  assert (Hl' : r <> 0 -> match l with loc_Exact => false | _ => true end = true).
  { intros N. subst l. destruct (Z.eqb_spec r 0); [lia | reflexivity]. }
  destruct (Z.lt_ge_cases q (2 ^ 53)) as [L | G].
  - rewrite (binary_round_aux_eq false q (e - 27) l 53) by (change (53 - 1) with 52; lia).
    cbv zeta. change (Z.to_nat (53 - 53)) with 0%nat. unfold Nat.iter. cbn [nat_rect].
    rewrite loc_of_shr_record_of_loc.
    replace (shr_m (shr_record_of_loc q l)) with q by (destruct l as [| []]; reflexivity).
    pose proof (round_nearest_even_bounds q l) as B.
    assert (B0 : r = 0 -> round_nearest_even q l = q) by (intros E; rewrite (Hl E); reflexivity).
    set (q' := round_nearest_even q l) in *.
    destruct (Z.ltb_spec q' (2 ^ 53)) as [L' | G'].
    + apply Math_ceil_pos; [lia | lia |].
      replace (- (e - 27 + (53 - 53))) with (27 - e) by lia. fold P.
      destruct Q5 as [Q5 | [Q5 E]]; [lia | rewrite (B0 E); lia].
    + assert (q' = 2 ^ 53) by lia.
      apply Math_ceil_pos; [apply pow2_pos; lia | lia |].
      replace (- (e - 27 + (53 - 53) + 1)) with (26 - e) by lia.
      change (2 ^ 53) with (2 * 2 ^ 52) in *.
      destruct Q5 as [Q5 | [Q5 E]]; [lia | rewrite (B0 E) in *; lia].
  - rewrite (binary_round_aux_eq false q (e - 27) l 54) by (change (54 - 1) with 53; lia).
    cbv zeta. change (Z.to_nat (54 - 53)) with 1%nat. unfold Nat.iter. cbn [nat_rect].
    rewrite shr_record_of_loc_eta, shr_1_nonneg, shr_sticky_of_loc by lia.
    cbn [shr_m].
    set (st := match l with loc_Exact => false | _ => true end) in *.
    set (q' := round_nearest_even (q / 2)
                 (loc_of_shr_record (Build_shr_record (q / 2) (Z.odd q) st))).
    assert (Hodd : Z.odd (k * P) = false).
    { rewrite HP2, Z.mul_assoc, (Z.mul_comm k 2), <- Z.mul_assoc. apply Z.odd_even. }
    assert (B : (k - 1) * P < 2 * q' <= k * P /\ 2 * q' <= q + 1).
    { subst q'.
      destruct (Z.odd q) eqn:Eo.
      - assert (Eq2 : q = 2 * (q / 2) + 1).
        { rewrite (Z.div_mod q 2) at 1 by lia. rewrite Zmod_odd, Eo. reflexivity. }
        destruct st eqn:Est; cbn [loc_of_shr_record round_nearest_even].
        + destruct Q5 as [Q5 | [Q5 E]]; [lia |]. rewrite Q5, Hodd in Eo. discriminate.
        + assert (r = 0).
          { destruct (Z.eq_dec r 0) as [E | N]; [exact E |]. specialize (Hl' N). congruence. }
          specialize (Q3 ltac:(assumption)).
          destruct Q5 as [Q5 | [Q5 E]]; [| rewrite Q5, Hodd in Eo; discriminate].
          destruct (Z.even (q / 2)); lia.
      - assert (Eq2 : q = 2 * (q / 2)).
        { rewrite (Z.div_mod q 2) at 1 by lia. rewrite Zmod_odd, Eo. lia. }
        destruct st; cbn [loc_of_shr_record round_nearest_even]; lia. }
    assert (Bq : q / 2 <= q') by apply round_nearest_even_bounds.
    assert (Hq' : 0 < q').
    { change (2 ^ 53) with 9007199254740992 in G. Z.div_mod_to_equations. lia. }
    destruct (Z.ltb_spec q' (2 ^ 53)) as [L' | G'].
    + apply Math_ceil_pos; [lia | lia |].
      replace (- (e - 27 + (54 - 53))) with (26 - e) by lia. lia.
    + assert (q' = 2 ^ 53) by lia.
      apply Math_ceil_pos; [apply pow2_pos; lia | lia |].
      replace (- (e - 27 + (54 - 53) + 1)) with (25 - e) by lia.
      change (2 ^ 53) with (2 * 2 ^ 52) in *. lia.
Qed.

(** Up to 2^53 every integer is a binary64 value. *)
Lemma round_to_binary64_exact n : n <= 2 ^ 53 -> round_to_binary64 n = n.
Proof.
  intros H. unfold round_to_binary64.
  destruct (Z.ltb_spec n (2 ^ 53)); [reflexivity |].
  assert (n = 2 ^ 53) as -> by lia. reflexivity.
Qed.

(** The Number for a difference of two time values, without its sign. *)
Lemma abs_of_Z_cases z :
  z <> 0 -> Z.abs z <= 2 * maxTime ->
  exists m e,
    Math_abs (of_Z z) = S754_finite false (Z.to_pos m) e /\
    2 ^ 52 <= m < 2 ^ 53 /\ -52 <= e <= 1 /\
    m * 2 ^ 27 = round_to_binary64 (Z.abs z) * 2 ^ (27 - e) /\
    0 < round_to_binary64 (Z.abs z) /\
    (e = 1 -> Z.even (round_to_binary64 (Z.abs z)) = true).
Proof.
  intros Hz Hmax. unfold round_to_binary64.
  destruct (Z.ltb_spec (Z.abs z) (2 ^ 53)) as [L | G].
  - pose proof (Zdigits2_le_53 z Hz L) as D. pose proof (Zdigits2_bounds z Hz) as B.
    set (d := Zdigits2 z) in *.
    exists (Z.abs z * 2 ^ (53 - d)), (d - 53).
    rewrite (of_Z_small z Hz L). fold d.
    pose proof (pow2_pos (53 - d) ltac:(lia)).
    assert (E1 : 2 ^ 52 = 2 ^ (d - 1) * 2 ^ (53 - d))
      by (rewrite <- pow2_split by lia; f_equal; lia).
    assert (E2 : 2 ^ 53 = 2 ^ d * 2 ^ (53 - d))
      by (rewrite <- pow2_split by lia; f_equal; lia).
    split; [reflexivity |]. split.
    { rewrite E1, E2. split; [apply Z.mul_le_mono_nonneg_r | apply Z.mul_lt_mono_pos_r]; lia. }
    split; [lia |]. split.
    { rewrite <- Z.mul_assoc, <- pow2_split by lia. do 2 f_equal. lia. }
    split; lia.
  - unfold of_Z. rewrite binary_normalize_nonzero by assumption.
    pose proof (binary_round_scaled_54 (z <? 0) (Z.abs z) 0) as R.
    rewrite Z.pow_0_r, Z.mul_1_r in R. change (- 0) with 0 in R.
    rewrite R by (unfold maxTime in Hmax; change (2 ^ 54) with 18014398509481984; lia).
    clear R. cbv zeta.
    set (q := round_nearest_even (Z.abs z / 2)
                (if Z.odd (Z.abs z) then loc_Inexact Eq else loc_Exact)).
    assert (Hq : Z.abs z / 2 <= q <= Z.abs z / 2 + 1) by apply round_nearest_even_bounds.
    assert (Hq' : 2 ^ 52 <= q < 2 ^ 53).
    { unfold maxTime in Hmax. change (2 ^ 52) with 4503599627370496.
      change (2 ^ 53) with 9007199254740992 in *. Z.div_mod_to_equations. lia. }
    destruct (Z.ltb_spec q (2 ^ 53)); [| lia].
    exists q, 1. split; [reflexivity |].
    split; [exact Hq' |]. split; [lia |]. split.
    { change (2 ^ 27) with (2 * 2 ^ (27 - 1)). lia. }
    split; [lia |]. intros _. rewrite Z.even_mul. reflexivity.
Qed.

(** The division of [durationOfStay], on the Number of an integer [z] that
    is the difference of two time values. *)
Lemma day_division z :
  Z.abs z <= 2 * maxTime ->
  Math_ceil (div (Math_abs (of_Z z)) (mul (mul (mul (of_Z 1000) (of_Z 60)) (of_Z 60)) (of_Z 24)))
  = of_Z (ceil_div (round_to_binary64 (Z.abs z)) 86400000).
Proof.
  intros Hmax. rewrite msPerDay_Number.
  destruct (Z.eq_dec z 0) as [-> | Hz]; [reflexivity |].
  destruct (abs_of_Z_cases z Hz Hmax) as (m & e & -> & Hm & He & HmV & HV & Hev).
  unfold ceil_div. apply ceil_div_day; assumption.
Qed.

Lemma ceil_div_nonneg a : 0 <= a -> 0 <= ceil_div a 86400000 <= a.
Proof. intros. unfold ceil_div. Z.div_mod_to_equations. lia. Qed.

Lemma round_to_binary64_bounds n :
  0 <= n <= 2 * maxTime -> 0 <= round_to_binary64 n < 2 ^ 54.
Proof.
  intros H. unfold round_to_binary64, maxTime in *.
  change (2 ^ 54) with 18014398509481984. change (2 ^ 53) with 9007199254740992.
  destruct (Z.ltb_spec n 9007199254740992); [lia |].
  pose proof (round_nearest_even_bounds (n / 2) (if Z.odd n then loc_Inexact Eq else loc_Exact)).
  Z.div_mod_to_equations. lia.
Qed.

(** The Number for an integer below 2^53 denotes that integer. *)
Lemma integral_value_of_Z k : Z.abs k < 2 ^ 53 -> integral_value (of_Z k) = Some k.
Proof.
  intros H. destruct (Z.eq_dec k 0) as [-> | Hk]; [reflexivity |].
  rewrite (of_Z_small k Hk H).
  pose proof (Zdigits2_le_53 k Hk H) as D. pose proof (Zdigits2_bounds k Hk) as B.
  set (d := Zdigits2 k) in *.
  pose proof (pow2_pos (53 - d) ltac:(lia)) as P.
  pose proof (pow2_pos (d - 1) ltac:(lia)) as P'.
  assert (Hpos : 0 < Z.abs k * 2 ^ (53 - d)) by nia.
  cbn [integral_value]. rewrite Z2Pos.id by exact Hpos.
  destruct (Z.leb_spec 0 (d - 53)) as [L | G].
  - assert (d = 53) by lia. subst d. replace (Zdigits2 k) with 53 by lia.
    change (53 - 53) with 0. rewrite !Z.pow_0_r, !Z.mul_1_r.
    f_equal. apply cond_Zopp_abs.
  - replace (- (d - 53)) with (53 - d) by lia.
    rewrite Z.mod_mul, Z.div_mul by lia. cbn [Z.eqb].
    f_equal. apply cond_Zopp_abs.
Qed.

(** An integer below 2^53 prints as its decimal numeral. *)
Lemma Number_toString_of_Z k :
  Z.abs k < 2 ^ 53 -> Number_toString (of_Z k) = Some (Z_toString k).
Proof.
  intros H. unfold Number_toString. rewrite (integral_value_of_Z k H).
  assert ((Z.abs k <? 10 ^ 21) = true) as ->.
  { apply Z.ltb_lt. change (2 ^ 53) with 9007199254740992 in H.
    change (10 ^ 21) with 1000000000000000000000. lia. }
  destruct (Z.eq_dec k 0) as [-> | Hk]; [reflexivity |].
  rewrite (of_Z_small k Hk H). reflexivity.
Qed.

End NumberFacts.

(** ** The guest record and the script *)

Import Calendar JSNumber JSDate Motel CalendarFacts NumberFacts.

Lemma append_assoc (s1 s2 s3 : string) :
  ((s1 ++ s2) ++ s3 = s1 ++ (s2 ++ s3))%string.
Proof.
  induction s1 as [| c s1 IH]; [reflexivity |].
  change (String c ((s1 ++ s2) ++ s3) = String c (s1 ++ (s2 ++ s3)))%string.
  rewrite IH. reflexivity.
Qed.

(** *** [age] *)

Section Age.
Variable LocalTZA : Z -> Z.

(** [age] always returns, and leaves the store as it is. *)
Lemma age_returns st :
  age LocalTZA st =
  (Returned
     (let today := mkDate (clock st) in
      let b := birthDate (motelCustomer st) in
      let years := getFullYear LocalTZA today - getFullYear LocalTZA b in
      let m := getMonth LocalTZA today - getMonth LocalTZA b in
      if (m <? 0) || ((m =? 0) && (getDate LocalTZA today <? getDate LocalTZA b))
      then years - 1 else years), st).
Proof.
  unfold age, bind, get, new_Date, ret. cbv zeta.
  destruct (_ || _); reflexivity.
Qed.

(** The test of [age] is the lexicographic comparison of (month, date). *)
Lemma decrement_iff (tm td bm bd : Z) :
  (tm - bm <? 0) || ((tm - bm =? 0) && (td <? bd)) = true <-> md_lt tm td bm bd.
Proof.
  unfold md_lt. rewrite orb_true_iff, andb_true_iff, !Z.ltb_lt, Z.eqb_eq. lia.
Qed.

(** The local calendar date of the next day: later in the same year, or the
    first of January of the next year. *)
Lemma next_local_day (today tomorrow : Date) :
  local_day LocalTZA tomorrow = local_day LocalTZA today + 1 ->
  (getFullYear LocalTZA tomorrow = getFullYear LocalTZA today /\
   md_lt (getMonth LocalTZA today) (getDate LocalTZA today)
         (getMonth LocalTZA tomorrow) (getDate LocalTZA tomorrow)) \/
  (getFullYear LocalTZA tomorrow = getFullYear LocalTZA today + 1 /\
   getMonth LocalTZA tomorrow = 0 /\ getDate LocalTZA tomorrow = 1).
Proof.
  unfold local_day, getFullYear, getMonth, getDate.
  set (t := LocalTime LocalTZA (DateValue today)).
  set (t' := LocalTime LocalTZA (DateValue tomorrow)).
  intros H. rewrite <- Day_next in H.
  rewrite (YearFromTime_Day _ _ H), (MonthFromTime_Day _ _ H), (DateFromTime_Day _ _ H).
  destruct (next_day_year t) as [E | (E & M & D)].
  - left. split; [exact E |]. apply month_date_lt; [symmetry; exact E |].
    rewrite Day_next. lia.
  - right. auto.
Qed.

(** C1.  [age()] returns the difference of the years of today and of the
    birth date, less one exactly when today's (month, date) comes before the
    birth date's in the lexicographic order; the dates are read in local
    time.  Hence a guest born [N] years ago to the day (same month and date)
    is [N], and a guest whose [N]th anniversary is on the next local day is
    [N - 1], the turn of the year included. *)
Theorem age_whole_years st :
  let today := mkDate (clock st) in
  let b := birthDate (motelCustomer st) in
  let years := getFullYear LocalTZA today - getFullYear LocalTZA b in
  (md_lt (getMonth LocalTZA today) (getDate LocalTZA today)
         (getMonth LocalTZA b) (getDate LocalTZA b) ->
   age LocalTZA st = (Returned (years - 1), st)) /\
  (~ md_lt (getMonth LocalTZA today) (getDate LocalTZA today)
           (getMonth LocalTZA b) (getDate LocalTZA b) ->
   age LocalTZA st = (Returned years, st)) /\
  (forall N,
      getFullYear LocalTZA b = getFullYear LocalTZA today - N ->
      getMonth LocalTZA b = getMonth LocalTZA today ->
      getDate LocalTZA b = getDate LocalTZA today ->
      age LocalTZA st = (Returned N, st)) /\
  (forall N tomorrow,
      local_day LocalTZA tomorrow = local_day LocalTZA today + 1 ->
      getFullYear LocalTZA tomorrow = getFullYear LocalTZA b + N ->
      getMonth LocalTZA tomorrow = getMonth LocalTZA b ->
      getDate LocalTZA tomorrow = getDate LocalTZA b ->
      age LocalTZA st = (Returned (N - 1), st)).
Proof.
  cbv zeta. rewrite age_returns. cbv zeta.
  set (today := mkDate (clock st)). set (b := birthDate (motelCustomer st)).
  pose proof (decrement_iff (getMonth LocalTZA today) (getDate LocalTZA today)
                (getMonth LocalTZA b) (getDate LocalTZA b)) as Hdec.
  destruct ((getMonth LocalTZA today - getMonth LocalTZA b <? 0)
            || ((getMonth LocalTZA today - getMonth LocalTZA b =? 0)
                && (getDate LocalTZA today <? getDate LocalTZA b))) eqn:E.
  - assert (Hlt := proj1 Hdec eq_refl). clear Hdec.
    repeat split.
    + intros Hn. contradiction.
    + intros N Hy Hm Hd. unfold md_lt in Hlt. lia.
    + intros N tomorrow Hday Hy Hm Hd.
      destruct (next_local_day today tomorrow Hday) as [[Ey _] | (Ey & Em & Ed)].
      * do 2 f_equal. lia.
      * pose proof (MonthFromTime_range (LocalTime LocalTZA (DateValue today))).
        pose proof (DateFromTime_range (LocalTime LocalTZA (DateValue today))).
        unfold md_lt, getMonth, getDate in *. lia.
  - assert (Hnlt : ~ md_lt (getMonth LocalTZA today) (getDate LocalTZA today)
                      (getMonth LocalTZA b) (getDate LocalTZA b)).
    { intros C. apply Hdec in C. discriminate. }
    clear Hdec. repeat split.
    + intros C. contradiction.
    + intros N Hy Hm Hd. do 2 f_equal. lia.
    + intros N tomorrow Hday Hy Hm Hd.
      destruct (next_local_day today tomorrow Hday) as [[Ey Hlt] | (Ey & Em & Ed)].
      * rewrite Hm, Hd in Hlt. contradiction.
      * do 2 f_equal. lia.
Qed.

(** C7.  Two runs with the same guest whose clocks show the same local
    calendar day return the same age: of the current moment only the local
    date matters. *)
Theorem age_time_of_day_invariant st1 st2 :
  motelCustomer st1 = motelCustomer st2 ->
  local_day LocalTZA (mkDate (clock st1)) = local_day LocalTZA (mkDate (clock st2)) ->
  fst (age LocalTZA st1) = fst (age LocalTZA st2).
Proof.
  intros Hc Hd. rewrite !age_returns. cbn [fst]. cbv zeta. rewrite Hc.
  unfold local_day in Hd. unfold getFullYear, getMonth, getDate.
  rewrite (YearFromTime_Day _ _ Hd), (MonthFromTime_Day _ _ Hd), (DateFromTime_Day _ _ Hd).
  reflexivity.
Qed.

(** C10.  For a birth date on a later local calendar day than today (the
    dates compared as the calendar dates [age()] reads), [age()] returns, and
    what it returns is negative: nothing clamps it. *)
Theorem age_future_birth_negative st :
  local_day LocalTZA (mkDate (clock st)) < local_day LocalTZA (birthDate (motelCustomer st)) ->
  exists n, age LocalTZA st = (Returned n, st) /\ n < 0.
Proof.
  intros H. rewrite age_returns. cbv zeta. eexists. split; [reflexivity |].
  set (today := mkDate (clock st)) in *. set (b := birthDate (motelCustomer st)) in *.
  pose proof (decrement_iff (getMonth LocalTZA today) (getDate LocalTZA today)
                (getMonth LocalTZA b) (getDate LocalTZA b)) as Hdec.
  unfold local_day in H.
  pose proof (YearFromTime_mono _ _ (Z.lt_le_incl _ _ H)) as Hy.
  fold (getFullYear LocalTZA today) in Hy. fold (getFullYear LocalTZA b) in Hy.
  destruct (Z.eq_dec (getFullYear LocalTZA today) (getFullYear LocalTZA b)) as [E | N].
  - pose proof (month_date_lt _ _ E H) as Hlt. apply Hdec in Hlt.
    fold (getMonth LocalTZA today) (getMonth LocalTZA b)
         (getDate LocalTZA today) (getDate LocalTZA b) in Hlt.
    rewrite Hlt. lia.
  - destruct (_ || _); lia.
Qed.

End Age.

(** *** [durationOfStay] *)

Lemma valid_date_small d : valid_date d -> Z.abs (DateValue d) < 2 ^ 53.
Proof.
  unfold valid_date, in_time_range, maxTime. change (2 ^ 53) with 9007199254740992. lia.
Qed.

Lemma stay_span (ci co : Date) :
  valid_date ci -> valid_date co -> Z.abs (DateValue co - DateValue ci) <= 2 * maxTime.
Proof. unfold valid_date, in_time_range. lia. Qed.

(** What [durationOfStay] computes, on valid dates. *)
Lemma durationOfStay_value st :
  valid_date (checkInDate (motelCustomer st)) ->
  valid_date (checkOutDate (motelCustomer st)) ->
  durationOfStay st =
  (Returned
     (of_Z (ceil_div
              (round_to_binary64
                 (Z.abs (DateValue (checkOutDate (motelCustomer st))
                         - DateValue (checkInDate (motelCustomer st)))))
              86400000)), st).
Proof.
  intros Hi Ho. unfold durationOfStay, bind, get, ret, getTime.
  rewrite sub_of_Z by (apply valid_date_small; assumption).
  rewrite day_division by (apply stay_span; assumption).
  reflexivity.
Qed.

(** C2, amended.  On valid dates whose time values are at most 2^53
    milliseconds apart, [durationOfStay()] returns the ceiling of the
    absolute difference in milliseconds over the milliseconds of a day; for
    a stay from 2024-04-01 to 2024-04-15 it returns 14, and for equal valid
    dates 0. *)
Theorem durationOfStay_ceiling st :
  let ci := checkInDate (motelCustomer st) in
  let co := checkOutDate (motelCustomer st) in
  (valid_date ci -> valid_date co -> Z.abs (DateValue co - DateValue ci) <= 2 ^ 53 ->
   durationOfStay st
   = (Returned (of_Z (ceil_div (Z.abs (DateValue co - DateValue ci)) msPerDay)), st)) /\
  (ci = Date_of_ISO_date 2024 4 1 -> co = Date_of_ISO_date 2024 4 15 ->
   durationOfStay st = (Returned (of_Z 14), st)) /\
  (valid_date ci -> co = ci -> durationOfStay st = (Returned (of_Z 0), st)).
Proof.
  cbv zeta. repeat split.
  - intros Hi Ho Hd. rewrite durationOfStay_value by assumption.
    rewrite round_to_binary64_exact by assumption. reflexivity.
  - intros Hi Ho. unfold durationOfStay, bind, get, ret. rewrite Hi, Ho.
    vm_compute. reflexivity.
  - intros Hi Ho. rewrite durationOfStay_value by (rewrite ?Ho; assumption).
    rewrite Ho, Z.sub_diag. reflexivity.
Qed.

(** C4.  [durationOfStay()] is symmetric: a guest whose check-in and
    check-out dates are those of another guest, swapped, stays as long. *)
Theorem durationOfStay_symmetric st st' :
  valid_date (checkInDate (motelCustomer st)) ->
  valid_date (checkOutDate (motelCustomer st)) ->
  checkInDate (motelCustomer st') = checkOutDate (motelCustomer st) ->
  checkOutDate (motelCustomer st') = checkInDate (motelCustomer st) ->
  fst (durationOfStay st') = fst (durationOfStay st).
Proof.
  intros Hi Ho Ei Eo.
  rewrite (durationOfStay_value st) by assumption.
  rewrite (durationOfStay_value st') by (rewrite ?Ei, ?Eo; assumption).
  rewrite Ei, Eo. cbn [fst]. do 4 f_equal. lia.
Qed.

(** C5.  On valid dates, in either order, [durationOfStay()] returns, and
    what it returns is the Number of a non-negative integer: an inverted
    range is not reported. *)
Theorem durationOfStay_never_rejects st :
  valid_date (checkInDate (motelCustomer st)) ->
  valid_date (checkOutDate (motelCustomer st)) ->
  exists n, 0 <= n /\ durationOfStay st = (Returned (of_Z n), st).
Proof.
  intros Hi Ho. rewrite durationOfStay_value by assumption.
  eexists. split; [| reflexivity].
  apply ceil_div_nonneg. apply round_to_binary64_bounds.
  pose proof (stay_span _ _ Hi Ho). lia.
Qed.

(** C2 as stated fails on [far_apart]: the difference of the two time
    values, 9007200000000001, is above 2^53 = 9007199254740992 and odd, so it
    is not a binary64 value; the subtraction yields 9007200000000000, which
    is 104250000 days exactly, while the ceiling of the true quotient is
    104250001. *)
Lemma durationOfStay_far_apart :
  valid_date (checkInDate (motelCustomer far_apart)) /\
  valid_date (checkOutDate (motelCustomer far_apart)) /\
  durationOfStay far_apart = (Returned (of_Z 104250000), far_apart) /\
  ceil_div (Z.abs (DateValue (checkOutDate (motelCustomer far_apart))
                   - DateValue (checkInDate (motelCustomer far_apart)))) msPerDay
  = 104250001 /\
  of_Z 104250000 <> of_Z 104250001.
Proof.
  split; [| split; [| split; [| split]]].
  - vm_compute. split; discriminate.
  - vm_compute. split; discriminate.
  - vm_compute. reflexivity.
  - vm_compute. reflexivity.
  - vm_compute. discriminate.
Qed.


(** [durationOfStay] on valid dates returns an integer that
    [Number_toString] prints as a decimal numeral. *)
Lemma durationOfStay_prints st :
  valid_date (checkInDate (motelCustomer st)) ->
  valid_date (checkOutDate (motelCustomer st)) ->
  exists n, 0 <= n /\ durationOfStay st = (Returned (of_Z n), st) /\
            Number_toString (of_Z n) = Some (Z_toString n).
Proof.
  intros Hi Ho. rewrite durationOfStay_value by assumption.
  pose proof (stay_span _ _ Hi Ho) as Hs.
  set (V := round_to_binary64 _).
  assert (HV : 0 <= V < 2 ^ 54) by (apply round_to_binary64_bounds; lia).
  pose proof (ceil_div_nonneg V ltac:(lia)) as Hc.
  exists (ceil_div V 86400000). split; [lia |]. split; [reflexivity |].
  apply Number_toString_of_Z.
  assert (ceil_div V 86400000 < 2 ^ 53); [| lia].
  unfold ceil_div. change (2 ^ 54) with 18014398509481984 in HV.
  change (2 ^ 53) with 9007199254740992. Z.div_mod_to_equations. lia.
Qed.

(** *** The mailing address and the description *)

Lemma mailingAddress_toString_returns st :
  mailingAddress_toString st
  = (Returned (street (mailingAddress (motelCustomer st)) ++ ", "
               ++ city (mailingAddress (motelCustomer st)) ++ ", "
               ++ postalCode (mailingAddress (motelCustomer st)))%string, st).
Proof. reflexivity. Qed.

(** C6.  The mailing address prints as its street, city and postal code,
    separated by a comma and a space; for 123 Duck St, St. John's, A5A 1A3
    that is exactly "123 Duck St, St. John's, A5A 1A3". *)
Theorem mailingAddress_toString_format :
  (forall st,
      mailingAddress_toString st
      = (Returned (street (mailingAddress (motelCustomer st)) ++ ", "
                   ++ city (mailingAddress (motelCustomer st)) ++ ", "
                   ++ postalCode (mailingAddress (motelCustomer st)))%string, st)) /\
  (forall n b g r p ph ci co now out doc,
      let st := mkStore (mkMotelCustomer n b g r p
                           (mkMailingAddress "123 Duck St" "St. John's" "A5A 1A3")
                           ph ci co) now out doc in
      mailingAddress_toString st
      = (Returned "123 Duck St, St. John's, A5A 1A3"%string, st)).
Proof. split; intros; reflexivity. Qed.

Section Description.
Variable LocalTZA : Z -> Z.
Variable toLocaleDateString : Date -> string.
Local Open Scope string_scope.

Lemma customerDescription_returns st a n :
  age LocalTZA st = (Returned a, st) ->
  durationOfStay st = (Returned (of_Z n), st) ->
  Number_toString (of_Z n) = Some (Z_toString n) ->
  customerDescription LocalTZA toLocaleDateString st
  = (Returned
       (let c := motelCustomer st in
        spec_template (name c) (Z_toString a) (gender c)
          (join (roomPreferences c) " and ") (phoneNumber c)
          (street (mailingAddress c) ++ ", " ++ city (mailingAddress c) ++ ", "
           ++ postalCode (mailingAddress c))
          (toLocaleDateString (checkInDate c)) (toLocaleDateString (checkOutDate c))
          (Z_toString n)), st).
Proof.
  intros Ha Hd Hs. unfold customerDescription, bind, get. cbv beta iota.
  rewrite Ha. cbv beta iota. rewrite mailingAddress_toString_returns. cbv beta iota.
  rewrite Hd. cbv beta iota. rewrite Hs. reflexivity.
Qed.

(** The guest of the script was born in July 1994 wherever local time is
    less than a day away from UTC. *)
Lemma literal_birth_month :
  (forall t, - msPerDay < LocalTZA t < msPerDay)%Z ->
  getFullYear LocalTZA (birthDate motelCustomer_literal) = 1994%Z /\
  getMonth LocalTZA (birthDate motelCustomer_literal) = 6%Z.
Proof.
  intros Htz. unfold getFullYear, getMonth, LocalTime.
  change (DateValue (birthDate motelCustomer_literal)) with 773107200000%Z.
  specialize (Htz 773107200000%Z). unfold msPerDay in Htz.
  set (t := (773107200000 + LocalTZA 773107200000)%Z).
  assert (Hd : Day t = Day (8947 * msPerDay) \/ Day t = Day (8948 * msPerDay)).
  { unfold Day, msPerDay. subst t. rewrite !Z.div_mul by lia.
    Z.div_mod_to_equations. lia. }
  destruct Hd as [Hd | Hd];
    rewrite (YearFromTime_Day _ _ Hd), (MonthFromTime_Day _ _ Hd); split; reflexivity.
Qed.

(** C3.  The description is the template of the specification with the
    name, the result of [age()], the gender, the room preferences joined by
    " and ", the phone number, the printed mailing address, the two dates as
    the host prints them and the result of [durationOfStay()], in this
    order.  For the guest of the script on a day that is 2025-01-01 in local
    time (on a host whose local time is less than a day away from UTC) it
    contains "a 30 year old Male who prefers rooms with Double Bed and
    Pet-Friendly Status" and ends with "duration of 14 days.". *)
Theorem customerDescription_template :
  (forall st,
      valid_date (checkInDate (motelCustomer st)) ->
      valid_date (checkOutDate (motelCustomer st)) ->
      exists a n addr,
        age LocalTZA st = (Returned a, st) /\
        durationOfStay st = (Returned (of_Z n), st) /\ (0 <= n)%Z /\
        mailingAddress_toString st = (Returned addr, st) /\
        customerDescription LocalTZA toLocaleDateString st
        = (Returned
             (let c := motelCustomer st in
              spec_template (name c) (Z_toString a) (gender c)
                (join (roomPreferences c) " and ") (phoneNumber c) addr
                (toLocaleDateString (checkInDate c)) (toLocaleDateString (checkOutDate c))
                (Z_toString n)), st)) /\
  (forall st,
      (forall t, - msPerDay < LocalTZA t < msPerDay)%Z ->
      motelCustomer st = motelCustomer_literal ->
      getFullYear LocalTZA (mkDate (clock st)) = 2025%Z ->
      getMonth LocalTZA (mkDate (clock st)) = 0%Z ->
      getDate LocalTZA (mkDate (clock st)) = 1%Z ->
      exists description,
        customerDescription LocalTZA toLocaleDateString st = (Returned description, st) /\
        contains description
          "a 30 year old Male who prefers rooms with Double Bed and Pet-Friendly Status" /\
        ends_with description "duration of 14 days.").
Proof.
  split.
  - intros st Hi Ho.
    destruct (durationOfStay_prints st Hi Ho) as (n & Hn & Hd & Hs).
    eexists _, n, _. split; [apply age_returns |].
    split; [exact Hd |]. split; [exact Hn |].
    split; [apply mailingAddress_toString_returns |].
    apply (customerDescription_returns st _ n (age_returns LocalTZA st) Hd Hs).
  - intros st Htz Hc Hy Hm Hday.
    destruct (literal_birth_month Htz) as [By Bm].
    assert (Ha : age LocalTZA st = (Returned 30%Z, st)).
    { rewrite age_returns. cbv zeta. rewrite Hc, Hy, Hm, By, Bm. reflexivity. }
    assert (Hd : durationOfStay st = (Returned (of_Z 14), st)).
    { unfold durationOfStay, bind, get, ret. rewrite Hc. vm_compute. reflexivity. }
    eexists. split.
    + apply (customerDescription_returns st 30%Z 14%Z Ha Hd). reflexivity.
    + rewrite Hc. cbv zeta. split.
      * exists "Hello! I'm Steven Norris, ".
        exists (". You can reach me at 709-987-6543. My mailing address is 123 Duck St, St. John's, A5A 1A3. I'll be staying from "
                ++ toLocaleDateString (checkInDate motelCustomer_literal) ++ " to "
                ++ toLocaleDateString (checkOutDate motelCustomer_literal)
                ++ ", which is a duration of 14 days.").
        reflexivity.
      * exists ("Hello! I'm Steven Norris, a 30 year old Male who prefers rooms with Double Bed and Pet-Friendly Status. You can reach me at 709-987-6543. My mailing address is 123 Duck St, St. John's, A5A 1A3. I'll be staying from "
                ++ toLocaleDateString (checkInDate motelCustomer_literal) ++ " to "
                ++ toLocaleDateString (checkOutDate motelCustomer_literal)
                ++ ", which is a ").
        rewrite !append_assoc. reflexivity.
Qed.

End Description.

(** *** The guest object is only read *)

Section Frame.
Context {A B : Type}.

(** The building blocks of the script leave the guest object unchanged. *)
Lemma leaves_ret (a : A) : leaves_guest_unchanged (ret a).
Proof. intros st. reflexivity. Qed.

Lemma leaves_bind (c : JS A) (k : A -> JS B) :
  leaves_guest_unchanged c -> (forall a, leaves_guest_unchanged (k a)) ->
  leaves_guest_unchanged (bind c k).
Proof.
  intros Hc Hk st. unfold bind. specialize (Hc st).
  destruct (c st) as [[a | e |] st']; cbn [snd] in *.
  - rewrite (Hk a st'). exact Hc.
  - exact Hc.
  - exact Hc.
Qed.

Lemma leaves_get (f : MotelCustomer -> A) : leaves_guest_unchanged (get f).
Proof. intros st. reflexivity. Qed.

Lemma leaves_of_option (o : option A) : leaves_guest_unchanged (of_option o).
Proof. intros st. destruct o; reflexivity. Qed.
End Frame.

Lemma leaves_new_Date : leaves_guest_unchanged new_Date.
Proof. intros st. reflexivity. Qed.

Lemma leaves_console_log s : leaves_guest_unchanged (console_log s).
Proof. intros st. reflexivity. Qed.

Lemma leaves_set_textContent_by_id id s :
  leaves_guest_unchanged (set_textContent_by_id id s).
Proof. intros st. unfold set_textContent_by_id. destruct (document st !! id); reflexivity. Qed.

Create HintDb frame.
#[local] Hint Resolve leaves_ret leaves_get leaves_of_option leaves_new_Date
  leaves_console_log leaves_set_textContent_by_id : frame.

Ltac frame :=
  repeat first
    [ apply leaves_bind; [| intros ?]
    | match goal with |- leaves_guest_unchanged (if ?b then _ else _) => destruct b end
    | solve [auto with frame] ].

Section Script.
Variable LocalTZA : Z -> Z.
Variable toLocaleDateString : Date -> string.

Lemma leaves_age : leaves_guest_unchanged (age LocalTZA).
Proof using Type. unfold age. frame. Qed.

Lemma leaves_durationOfStay : leaves_guest_unchanged durationOfStay.
Proof using Type. unfold durationOfStay. frame. Qed.

Lemma leaves_mailingAddress_toString : leaves_guest_unchanged mailingAddress_toString.
Proof using Type. unfold mailingAddress_toString. frame. Qed.

Lemma leaves_customerDescription :
  leaves_guest_unchanged (customerDescription LocalTZA toLocaleDateString).
Proof.
  unfold customerDescription.
  pose proof leaves_age. pose proof leaves_durationOfStay.
  pose proof leaves_mailingAddress_toString.
  frame.
Qed.

(** C8.  The guest object is the same after [age()], after
    [durationOfStay()], after the printing of the address, after the
    assembly of the description, after each of the two output steps and
    after the whole script, however each of them ends: no field of the
    record or of its address is assigned. *)
Theorem guest_record_immutable :
  leaves_guest_unchanged (age LocalTZA) /\
  leaves_guest_unchanged durationOfStay /\
  leaves_guest_unchanged mailingAddress_toString /\
  leaves_guest_unchanged (customerDescription LocalTZA toLocaleDateString) /\
  (forall s, leaves_guest_unchanged (console_log s)) /\
  (forall id s, leaves_guest_unchanged (set_textContent_by_id id s)) /\
  leaves_guest_unchanged (script LocalTZA toLocaleDateString).
Proof.
  pose proof leaves_customerDescription as Hd.
  repeat split;
    auto using leaves_age, leaves_durationOfStay, leaves_mailingAddress_toString,
      leaves_console_log, leaves_set_textContent_by_id.
  unfold script. frame.
Qed.

(** C9.  The script writes the description to the console before it looks
    the element up: the console holds the description at the end of every
    run, and when the document has no element with the id [customerInfo] the
    run ends with a TypeError, the console written and the document left
    as it was. *)
Theorem console_written_before_lookup st :
  valid_date (checkInDate (motelCustomer st)) ->
  valid_date (checkOutDate (motelCustomer st)) ->
  exists description,
    customerDescription LocalTZA toLocaleDateString st = (Returned description, st) /\
    console (snd (script LocalTZA toLocaleDateString st)) = console st ++ [description] /\
    (document st !! "customerInfo"%string = None ->
     script LocalTZA toLocaleDateString st
     = (Thrown TypeError,
        mkStore (motelCustomer st) (clock st) (console st ++ [description]) (document st))).
Proof.
  intros Hi Ho.
  destruct (durationOfStay_prints st Hi Ho) as (n & Hn & Hd & Hs).
  pose proof (customerDescription_returns LocalTZA toLocaleDateString st _ n
                (age_returns LocalTZA st) Hd Hs) as Hdesc.
  eexists. split; [exact Hdesc |].
  unfold script, bind. rewrite Hdesc. unfold console_log, set_textContent_by_id.
  cbn [document console motelCustomer clock].
  destruct (document st !! "customerInfo"%string) eqn:E.
  - split; [reflexivity | discriminate].
  - split; [reflexivity | reflexivity].
Qed.

End Script.

(** ** The theorems at work on concrete runs *)

(** A guest born on 2 July 1994 is 30 on 2 July 2024, and still 29 the day
    before (local time UTC): by the comparison of (month, date), and as the
    anniversary of the day and of the next day. *)
Lemma age_whole_years_witness :
  let birthday := initial_store (DateValue (Date_of_ISO_date 2024 7 2)) ∅ in
  let eve := initial_store (DateValue (Date_of_ISO_date 2024 7 1)) ∅ in
  (age UTC eve = (Returned (2024 - 1994 - 1), eve) /\
   age UTC birthday = (Returned (2024 - 1994), birthday)) /\
  age UTC birthday = (Returned 30, birthday) /\ age UTC eve = (Returned 29, eve).
Proof.
  cbv zeta.
  pose proof (age_whole_years UTC (initial_store (DateValue (Date_of_ISO_date 2024 7 2)) ∅))
    as (_ & Hsame & Hyears & _).
  pose proof (age_whole_years UTC (initial_store (DateValue (Date_of_ISO_date 2024 7 1)) ∅))
    as (Hbefore & _ & _ & Hnext).
  split; [split | split].
  - apply Hbefore. vm_compute. right. split; reflexivity.
  - apply Hsame. vm_compute. intros [H | [_ H]]; discriminate H.
  - apply (Hyears 30); vm_compute; reflexivity.
  - apply (Hnext 30 (Date_of_ISO_date 2024 7 2)); vm_compute; reflexivity.
Defined.

(** The first and the last millisecond of 1 January 2025 give the same age. *)
Lemma age_time_of_day_invariant_witness :
  fst (age UTC (initial_store 1735689600000 ∅))
  = fst (age UTC (initial_store 1735775999999 ∅)).
Proof.
  apply (age_time_of_day_invariant UTC (initial_store 1735689600000 ∅)
           (initial_store 1735775999999 ∅)); vm_compute; reflexivity.
Defined.

(** A guest to be born on 1 January 2100, seen on 1 January 2025. *)
Lemma age_future_birth_negative_witness :
  exists n,
    age UTC (mkStore (born_on (Date_of_ISO_date 2100 1 1)) 1735689600000 [] ∅)
    = (Returned n, mkStore (born_on (Date_of_ISO_date 2100 1 1)) 1735689600000 [] ∅)
    /\ n < 0.
Proof.
  apply (age_future_birth_negative UTC
           (mkStore (born_on (Date_of_ISO_date 2100 1 1)) 1735689600000 [] ∅)).
  vm_compute. reflexivity.
Defined.

(** The stay of the script is 14 days, and a stay that ends on the day it
    begins is 0 days. *)
Lemma durationOfStay_ceiling_witness :
  let same_day :=
    mkStore (with_stay (Date_of_ISO_date 2024 4 1) (Date_of_ISO_date 2024 4 1)) 0 [] ∅ in
  durationOfStay (initial_store 0 ∅)
  = (Returned (of_Z (ceil_div (Z.abs (1713139200000 - 1711929600000)) msPerDay)),
     initial_store 0 ∅) /\
  durationOfStay (initial_store 0 ∅) = (Returned (of_Z 14), initial_store 0 ∅) /\
  durationOfStay same_day = (Returned (of_Z 0), same_day).
Proof.
  cbv zeta.
  pose proof (durationOfStay_ceiling (initial_store 0 ∅)) as (Hceil & Hlit & _).
  pose proof (durationOfStay_ceiling
                (mkStore (with_stay (Date_of_ISO_date 2024 4 1) (Date_of_ISO_date 2024 4 1))
                         0 [] ∅)) as (_ & _ & Hsame).
  split; [| split].
  - apply Hceil; vm_compute; try split; discriminate.
  - apply Hlit; reflexivity.
  - apply Hsame; [vm_compute; split; discriminate | reflexivity].
Defined.

(** The stay of the script with its two dates swapped. *)
Lemma durationOfStay_symmetric_witness :
  fst (durationOfStay
         (mkStore (with_stay (Date_of_ISO_date 2024 4 15) (Date_of_ISO_date 2024 4 1)) 0 [] ∅))
  = fst (durationOfStay (initial_store 0 ∅)).
Proof.
  apply (durationOfStay_symmetric (initial_store 0 ∅)
           (mkStore (with_stay (Date_of_ISO_date 2024 4 15) (Date_of_ISO_date 2024 4 1))
                    0 [] ∅));
    try reflexivity; vm_compute; split; discriminate.
Defined.

(** A check-out a fortnight before the check-in is not reported. *)
Lemma durationOfStay_never_rejects_witness :
  exists n,
    0 <= n /\
    durationOfStay
      (mkStore (with_stay (Date_of_ISO_date 2024 4 15) (Date_of_ISO_date 2024 4 1)) 0 [] ∅)
    = (Returned (of_Z n),
       mkStore (with_stay (Date_of_ISO_date 2024 4 15) (Date_of_ISO_date 2024 4 1)) 0 [] ∅).
Proof.
  apply (durationOfStay_never_rejects
           (mkStore (with_stay (Date_of_ISO_date 2024 4 15) (Date_of_ISO_date 2024 4 1))
                    0 [] ∅));
    vm_compute; split; discriminate.
Defined.

(** The description of the guest of the script on 1 January 2025, local
    time UTC, dates printed as month/day/year. *)
Lemma customerDescription_template_witness :
  let st := initial_store 1735689600000 ∅ in
  (exists a n addr,
      age UTC st = (Returned a, st) /\
      durationOfStay st = (Returned (of_Z n), st) /\ 0 <= n /\
      mailingAddress_toString st = (Returned addr, st) /\
      customerDescription UTC (month_day_year UTC) st
      = (Returned
           (spec_template "Steven Norris" (Z_toString a) "Male"
              "Double Bed and Pet-Friendly Status" "709-987-6543" addr
              "4/1/2024" "4/15/2024" (Z_toString n)), st)) /\
  exists description,
    customerDescription UTC (month_day_year UTC) st = (Returned description, st) /\
    contains description
      "a 30 year old Male who prefers rooms with Double Bed and Pet-Friendly Status" /\
    ends_with description "duration of 14 days.".
Proof.
  cbv zeta.
  pose proof (customerDescription_template UTC (month_day_year UTC)) as [Hgeneral Hliteral].
  split.
  - apply (Hgeneral (initial_store 1735689600000 ∅)); vm_compute; split; discriminate.
  - apply (Hliteral (initial_store 1735689600000 ∅)).
    + intros t. unfold UTC, msPerDay. lia.
    + reflexivity.
    + vm_compute. reflexivity.
    + vm_compute. reflexivity.
    + vm_compute. reflexivity.
Defined.

(** The script in a document without the element: the description is on
    the console when the TypeError is thrown. *)
Lemma console_written_before_lookup_witness :
  exists description,
    customerDescription UTC (month_day_year UTC) (initial_store 1735689600000 ∅)
    = (Returned description, initial_store 1735689600000 ∅) /\
    script UTC (month_day_year UTC) (initial_store 1735689600000 ∅)
    = (Thrown TypeError, mkStore motelCustomer_literal 1735689600000 [description] ∅).
Proof.
  destruct (console_written_before_lookup UTC (month_day_year UTC)
              (initial_store 1735689600000 ∅))
    as (description & Hd & _ & Hn).
  - vm_compute. split; discriminate.
  - vm_compute. split; discriminate.
  - exists description. split; [exact Hd |]. apply Hn. reflexivity.
Defined.

(** ** Further properties of the script *)

(** On all valid dates [durationOfStay()] returns the ceiling of the days
    in the difference of the time values as binary64 holds it: exact up to
    2^53 milliseconds, rounded to an even number beyond. *)
Theorem durationOfStay_binary64 st :
  valid_date (checkInDate (motelCustomer st)) ->
  valid_date (checkOutDate (motelCustomer st)) ->
  durationOfStay st =
  (Returned
     (of_Z (ceil_div
              (round_to_binary64
                 (Z.abs (DateValue (checkOutDate (motelCustomer st))
                         - DateValue (checkInDate (motelCustomer st)))))
              msPerDay)), st).
Proof. exact (durationOfStay_value st). Qed.

Lemma durationOfStay_binary64_witness :
  durationOfStay far_apart
  = (Returned (of_Z (ceil_div (round_to_binary64 (Z.abs (367200000000001 - -8640000000000000)))
                              msPerDay)), far_apart).
Proof.
  apply (durationOfStay_binary64 far_apart); vm_compute; split; discriminate.
Defined.

(** Two valid dates that differ, by as little as a millisecond and in
    either order, make a stay of at least one day. *)
Theorem durationOfStay_started_day_counts st :
  valid_date (checkInDate (motelCustomer st)) ->
  valid_date (checkOutDate (motelCustomer st)) ->
  DateValue (checkInDate (motelCustomer st)) <> DateValue (checkOutDate (motelCustomer st)) ->
  exists n, 1 <= n /\ durationOfStay st = (Returned (of_Z n), st).
Proof.
  intros Hi Ho Hne. rewrite durationOfStay_value by assumption.
  eexists. split; [| reflexivity].
  set (V := Z.abs _). assert (HV : 1 <= V) by (subst V; lia).
  assert (HR : 1 <= round_to_binary64 V).
  { unfold round_to_binary64. destruct (Z.ltb_spec V (2 ^ 53)) as [L | G]; [lia |].
    pose proof (round_nearest_even_bounds (V / 2)
                  (if Z.odd V then loc_Inexact Eq else loc_Exact)).
    change (2 ^ 53) with 9007199254740992 in G. Z.div_mod_to_equations. lia. }
  unfold ceil_div. Z.div_mod_to_equations. lia.
Qed.

Lemma durationOfStay_started_day_counts_witness :
  exists n,
    1 <= n /\
    durationOfStay (mkStore (with_stay (mkDate 1) (mkDate 0)) 0 [] ∅)
    = (Returned (of_Z n), mkStore (with_stay (mkDate 1) (mkDate 0)) 0 [] ∅).
Proof.
  apply (durationOfStay_started_day_counts (mkStore (with_stay (mkDate 1) (mkDate 0)) 0 [] ∅));
    vm_compute; try split; discriminate.
Defined.

Section Further.
Variable LocalTZA : Z -> Z.
Variable toLocaleDateString : Date -> string.

(** A guest born on today's local calendar day or on an earlier one has a
    non-negative age. *)
Theorem age_nonnegative_after_birth st :
  local_day LocalTZA (birthDate (motelCustomer st)) <= local_day LocalTZA (mkDate (clock st)) ->
  exists n, age LocalTZA st = (Returned n, st) /\ 0 <= n.
Proof using LocalTZA.
  intros H. rewrite age_returns. cbv zeta. eexists. split; [reflexivity |].
  set (today := mkDate (clock st)) in *. set (b := birthDate (motelCustomer st)) in *.
  pose proof (decrement_iff (getMonth LocalTZA today) (getDate LocalTZA today)
                (getMonth LocalTZA b) (getDate LocalTZA b)) as Hdec.
  unfold local_day in H.
  pose proof (YearFromTime_mono _ _ H) as Hy.
  fold (getFullYear LocalTZA today) in Hy. fold (getFullYear LocalTZA b) in Hy.
  destruct ((getMonth LocalTZA today - getMonth LocalTZA b <? 0)
            || ((getMonth LocalTZA today - getMonth LocalTZA b =? 0)
                && (getDate LocalTZA today <? getDate LocalTZA b))) eqn:E; [| lia].
  assert (Hlt := proj1 Hdec eq_refl).
  destruct (Z.eq_dec (getFullYear LocalTZA b) (getFullYear LocalTZA today)) as [Ey | Ny]; [| lia].
  exfalso. unfold md_lt, getMonth, getDate in Hlt.
  destruct (Z.eq_dec (Day (LocalTime LocalTZA (DateValue b)))
                     (Day (LocalTime LocalTZA (DateValue today)))) as [Ed | Nd].
  - rewrite (MonthFromTime_Day _ _ Ed), (DateFromTime_Day _ _ Ed) in Hlt. lia.
  - pose proof (month_date_lt _ _ Ey ltac:(lia)) as Hrev. unfold md_lt in Hrev. lia.
Qed.

(** With the element in the document the script returns: the description
    is on the console and is the text of the element. *)
Theorem script_renders st el :
  valid_date (checkInDate (motelCustomer st)) ->
  valid_date (checkOutDate (motelCustomer st)) ->
  document st !! "customerInfo"%string = Some el ->
  exists description,
    customerDescription LocalTZA toLocaleDateString st = (Returned description, st) /\
    script LocalTZA toLocaleDateString st
    = (Returned tt,
       mkStore (motelCustomer st) (clock st) (console st ++ [description])
               (<["customerInfo"%string := mkElement description]> (document st))).
Proof using LocalTZA toLocaleDateString.
  intros Hi Ho Hel.
  destruct (durationOfStay_prints st Hi Ho) as (n & Hn & Hd & Hs).
  pose proof (customerDescription_returns LocalTZA toLocaleDateString st _ n
                (age_returns LocalTZA st) Hd Hs) as Hdesc.
  eexists. split; [exact Hdesc |].
  unfold script, bind. rewrite Hdesc. unfold console_log, set_textContent_by_id.
  cbn [document console motelCustomer clock]. rewrite Hel. reflexivity.
Qed.

End Further.

Lemma age_nonnegative_after_birth_witness :
  exists n,
    age UTC (initial_store (DateValue (Date_of_ISO_date 1994 7 2)) ∅)
    = (Returned n, initial_store (DateValue (Date_of_ISO_date 1994 7 2)) ∅) /\ 0 <= n.
Proof.
  apply (age_nonnegative_after_birth UTC
           (initial_store (DateValue (Date_of_ISO_date 1994 7 2)) ∅)).
  vm_compute. discriminate.
Defined.

Lemma script_renders_witness :
  let doc : gmap string Element := {["customerInfo"%string := mkElement ""%string]} in
  exists description,
    customerDescription UTC (month_day_year UTC) (initial_store 1735689600000 doc)
    = (Returned description, initial_store 1735689600000 doc) /\
    script UTC (month_day_year UTC) (initial_store 1735689600000 doc)
    = (Returned tt,
       mkStore motelCustomer_literal 1735689600000 [description]
               (<["customerInfo"%string := mkElement description]> doc)).
Proof.
  cbv zeta.
  destruct (script_renders UTC (month_day_year UTC)
              (initial_store 1735689600000 {["customerInfo"%string := mkElement ""%string]})
              (mkElement ""%string))
    as (description & Hd & Hs).
  - vm_compute. split; discriminate.
  - vm_compute. split; discriminate.
  - reflexivity.
  - exists description. split; [exact Hd | exact Hs].
Defined.

(** ** More on [age]: anniversaries and the passing of days *)

Import Statements.

(** A later day has a later calendar date. *)
Lemma fields_le a b :
  Day a <= Day b ->
  date_le (YearFromTime a) (MonthFromTime a) (DateFromTime a)
          (YearFromTime b) (MonthFromTime b) (DateFromTime b).
Proof.
  intros H. unfold date_le.
  pose proof (YearFromTime_mono a b H) as Hy.
  destruct (Z.eq_dec (YearFromTime a) (YearFromTime b)) as [E | N]; [| lia].
  right. split; [exact E |].
  destruct (Z.eq_dec (Day a) (Day b)) as [Ed | Nd].
  - rewrite (MonthFromTime_Day _ _ Ed), (DateFromTime_Day _ _ Ed). lia.
  - pose proof (month_date_lt a b E ltac:(lia)) as L. unfold md_lt in L. lia.
Qed.

Section AgeMore.
Variable LocalTZA : Z -> Z.

(** [age] against the anniversaries of the birth date. *)
Lemma age_anniversaries st :
  exists a,
    age LocalTZA st = (Returned a, st) /\
    forall N,
      N <= a <->
      date_le (getFullYear LocalTZA (birthDate (motelCustomer st)) + N)
              (getMonth LocalTZA (birthDate (motelCustomer st)))
              (getDate LocalTZA (birthDate (motelCustomer st)))
              (getFullYear LocalTZA (mkDate (clock st)))
              (getMonth LocalTZA (mkDate (clock st)))
              (getDate LocalTZA (mkDate (clock st))).
Proof using LocalTZA.
  rewrite age_returns. cbv zeta. eexists. split; [reflexivity |].
  intros N.
  set (today := mkDate (clock st)). set (b := birthDate (motelCustomer st)).
  pose proof (decrement_iff (getMonth LocalTZA today) (getDate LocalTZA today)
                (getMonth LocalTZA b) (getDate LocalTZA b)) as Hdec.
  unfold date_le. unfold md_lt in Hdec.
  destruct ((getMonth LocalTZA today - getMonth LocalTZA b <? 0)
            || ((getMonth LocalTZA today - getMonth LocalTZA b =? 0)
                && (getDate LocalTZA today <? getDate LocalTZA b))) eqn:E.
  - assert (Hlt := proj1 Hdec eq_refl). lia.
  - assert (Hn : ~ (getMonth LocalTZA today < getMonth LocalTZA b \/
                    getMonth LocalTZA today = getMonth LocalTZA b /\
                    getDate LocalTZA today < getDate LocalTZA b)).
    { intros C. apply Hdec in C. discriminate. }
    lia.
Qed.

(** The age is the number of anniversaries of the birth date up to today:
    [N <= age()] exactly when the birth date moved [N] years on is today's
    date or an earlier one (dates as the getters read them, in local time). *)
Theorem age_counts_anniversaries st :
  exists a,
    age LocalTZA st = (Returned a, st) /\
    forall N,
      N <= a <->
      date_le (getFullYear LocalTZA (birthDate (motelCustomer st)) + N)
              (getMonth LocalTZA (birthDate (motelCustomer st)))
              (getDate LocalTZA (birthDate (motelCustomer st)))
              (getFullYear LocalTZA (mkDate (clock st)))
              (getMonth LocalTZA (mkDate (clock st)))
              (getDate LocalTZA (mkDate (clock st))).
Proof using LocalTZA. exact (age_anniversaries st). Qed.

Lemma date_le_trans y1 m1 d1 y2 m2 d2 y3 m3 d3 :
  date_le y1 m1 d1 y2 m2 d2 -> date_le y2 m2 d2 y3 m3 d3 -> date_le y1 m1 d1 y3 m3 d3.
Proof. unfold date_le. lia. Qed.

Lemma date_le_shift y1 m1 d1 y2 m2 d2 N :
  date_le y1 m1 d1 y2 m2 d2 -> date_le (y1 + N) m1 d1 (y2 + N) m2 d2.
Proof. unfold date_le. lia. Qed.

Lemma local_fields_le (a b : Date) :
  local_day LocalTZA a <= local_day LocalTZA b ->
  date_le (getFullYear LocalTZA a) (getMonth LocalTZA a) (getDate LocalTZA a)
          (getFullYear LocalTZA b) (getMonth LocalTZA b) (getDate LocalTZA b).
Proof using LocalTZA. apply fields_le. Qed.

(** The age never falls as the days go by. *)
Theorem age_never_falls st1 st2 :
  motelCustomer st1 = motelCustomer st2 ->
  local_day LocalTZA (mkDate (clock st1)) <= local_day LocalTZA (mkDate (clock st2)) ->
  exists a1 a2,
    age LocalTZA st1 = (Returned a1, st1) /\ age LocalTZA st2 = (Returned a2, st2) /\
    a1 <= a2.
Proof using LocalTZA.
  intros Hc Hd.
  destruct (age_anniversaries st1) as (a1 & H1 & C1).
  destruct (age_anniversaries st2) as (a2 & H2 & C2).
  exists a1, a2. split; [exact H1 |]. split; [exact H2 |].
  apply C2. rewrite <- Hc.
  eapply date_le_trans; [apply C1; lia |]. apply local_fields_le. exact Hd.
Qed.

(** Of two guests seen at the same moment, the one born on the earlier
    day is not the younger. *)
Theorem age_older_birth st1 st2 :
  clock st1 = clock st2 ->
  local_day LocalTZA (birthDate (motelCustomer st1))
  <= local_day LocalTZA (birthDate (motelCustomer st2)) ->
  exists a1 a2,
    age LocalTZA st1 = (Returned a1, st1) /\ age LocalTZA st2 = (Returned a2, st2) /\
    a2 <= a1.
Proof using LocalTZA.
  intros Hc Hd.
  destruct (age_anniversaries st1) as (a1 & H1 & C1).
  destruct (age_anniversaries st2) as (a2 & H2 & C2).
  exists a1, a2. split; [exact H1 |]. split; [exact H2 |].
  apply C1. rewrite Hc.
  apply (date_le_trans _ _ _
           (getFullYear LocalTZA (birthDate (motelCustomer st2)) + a2)
           (getMonth LocalTZA (birthDate (motelCustomer st2)))
           (getDate LocalTZA (birthDate (motelCustomer st2)))).
  - apply date_le_shift. apply local_fields_le. exact Hd.
  - apply C2. lia.
Qed.

(** From one local day to the next the age stays or grows by one. *)
Theorem age_one_step_a_day st1 st2 :
  motelCustomer st1 = motelCustomer st2 ->
  local_day LocalTZA (mkDate (clock st2)) = local_day LocalTZA (mkDate (clock st1)) + 1 ->
  exists a1 a2,
    age LocalTZA st1 = (Returned a1, st1) /\ age LocalTZA st2 = (Returned a2, st2) /\
    (a2 = a1 \/ a2 = a1 + 1).
Proof using LocalTZA.
  intros Hc Hd.
  destruct (age_anniversaries st1) as (a1 & H1 & C1).
  destruct (age_anniversaries st2) as (a2 & H2 & C2).
  exists a1, a2. split; [exact H1 |]. split; [exact H2 |].
  rewrite <- Hc in C2.
  set (b := birthDate (motelCustomer st1)) in *.
  pose proof (MonthFromTime_range (LocalTime LocalTZA (DateValue b))) as Mb.
  pose proof (DateFromTime_range (LocalTime LocalTZA (DateValue b))) as Db.
  pose proof (MonthFromTime_range (LocalTime LocalTZA (clock st1))) as Mt.
  pose proof (DateFromTime_range (LocalTime LocalTZA (clock st1))) as Dt.
  fold (getMonth LocalTZA b) in Mb. fold (getDate LocalTZA b) in Db.
  change (clock st1) with (DateValue (mkDate (clock st1))) in Mt, Dt.
  fold (getMonth LocalTZA (mkDate (clock st1))) in Mt.
  fold (getDate LocalTZA (mkDate (clock st1))) in Dt.
  pose proof (proj1 (C1 a1) ltac:(lia)) as L1.
  pose proof (proj1 (C2 a2) ltac:(lia)) as L2.
  assert (U1 : ~ date_le (getFullYear LocalTZA b + (a1 + 1)) (getMonth LocalTZA b)
                  (getDate LocalTZA b) (getFullYear LocalTZA (mkDate (clock st1)))
                  (getMonth LocalTZA (mkDate (clock st1)))
                  (getDate LocalTZA (mkDate (clock st1)))).
  { intros C. apply C1 in C. lia. }
  assert (U2 : ~ date_le (getFullYear LocalTZA b + (a2 + 1)) (getMonth LocalTZA b)
                  (getDate LocalTZA b) (getFullYear LocalTZA (mkDate (clock st2)))
                  (getMonth LocalTZA (mkDate (clock st2)))
                  (getDate LocalTZA (mkDate (clock st2)))).
  { intros C. apply C2 in C. lia. }
  destruct (next_local_day LocalTZA (mkDate (clock st1)) (mkDate (clock st2)) Hd)
    as [[Ey Hlt] | (Ey & Em & Ed)];
    unfold date_le, md_lt in *; lia.
Qed.

End AgeMore.

(** ** Date-only strings and the time zone *)

Lemma leap_range y : leap y = 0 \/ leap y = 1.
Proof. unfold leap. destruct (_ =? _); auto. Qed.

Lemma DaysInYear_leap y : DaysInYear y = 365 + leap y.
Proof. unfold leap. destruct (DaysInYear_range y) as [E | E]; rewrite E; reflexivity. Qed.

Lemma MakeDay_month_in_range y m d :
  0 <= m <= 11 -> MakeDay y m d = DayFromYear y + DaysBeforeMonth m (leap y) + d - 1.
Proof.
  intros Hm. unfold MakeDay. cbv zeta.
  replace (m / 12) with 0 by (Z.div_mod_to_equations; lia).
  replace (m mod 12) with m by (Z.div_mod_to_equations; lia).
  rewrite Z.add_0_r. reflexivity.
Qed.

(** The calendar fields of any time on the day [MakeDay y m d], for a date
    that exists, are [y], [m] and [d]. *)
Lemma fields_of_MakeDay y m d t :
  0 <= m <= 11 -> 1 <= d <= DaysInMonth m (leap y) -> Day t = MakeDay y m d ->
  YearFromTime t = y /\ MonthFromTime t = m /\ DateFromTime t = d.
Proof.
  intros Hm Hd Ht. rewrite MakeDay_month_in_range in Ht by exact Hm.
  pose proof (leap_range y) as Hl.
  assert (Hy : YearFromTime t = y).
  { apply YearFromTime_unique. rewrite DayFromYear_succ, DaysInYear_leap, Ht.
    assert (m = 0 \/ m = 1 \/ m = 2 \/ m = 3 \/ m = 4 \/ m = 5 \/ m = 6 \/ m = 7 \/
            m = 8 \/ m = 9 \/ m = 10 \/ m = 11) as Hc by lia.
    repeat destruct Hc as [-> | Hc]; try subst m;
      cbn [DaysBeforeMonth DaysInMonth] in *; lia. }
  assert (Hleap : InLeapYear t = leap y) by (unfold InLeapYear, leap; rewrite Hy; reflexivity).
  assert (Hw : DayWithinYear t = DaysBeforeMonth m (leap y) + d - 1)
    by (unfold DayWithinYear; rewrite Hy; lia).
  split; [exact Hy |].
  unfold DateFromTime, MonthFromTime. cbv zeta. rewrite Hleap, Hw.
  assert (m = 0 \/ m = 1 \/ m = 2 \/ m = 3 \/ m = 4 \/ m = 5 \/ m = 6 \/ m = 7 \/
          m = 8 \/ m = 9 \/ m = 10 \/ m = 11) as Hc by lia.
  repeat destruct Hc as [-> | Hc]; try subst m;
    cbn [DaysBeforeMonth DaysInMonth] in *;
    month_cases; try lia; split; lia.
Qed.

Section ReadBack.
Variable LocalTZA : Z -> Z.

(** A date written as a date-only string is midnight UTC.  On a host at or
    east of UTC (its offset below a day) the getters read the date as
    written; on a host west of UTC they read the day before. *)
Theorem date_only_read_back y m d :
  1 <= m <= 12 -> 1 <= d <= DaysInMonth (m - 1) (leap y) ->
  let date := Date_of_ISO_date y m d in
  (0 <= LocalTZA (DateValue date) < msPerDay ->
   getFullYear LocalTZA date = y /\ getMonth LocalTZA date = m - 1 /\
   getDate LocalTZA date = d) /\
  (- msPerDay <= LocalTZA (DateValue date) < 0 ->
   local_day LocalTZA date = MakeDay y (m - 1) d - 1 /\
   ~ (getFullYear LocalTZA date = y /\ getMonth LocalTZA date = m - 1 /\
      getDate LocalTZA date = d)).
Proof using LocalTZA.
  intros Hm Hd. cbv zeta.
  unfold getFullYear, getMonth, getDate, local_day, LocalTime.
  set (t := DateValue (Date_of_ISO_date y m d)).
  assert (Et : t = MakeDay y (m - 1) d * msPerDay)
    by (unfold t, Date_of_ISO_date, MakeDate; cbn [DateValue]; lia).
  clearbody t. set (o := LocalTZA t). clearbody o. subst t.
  split.
  - intros Ho. apply fields_of_MakeDay; [lia | exact Hd |].
    unfold Day, msPerDay in *. Z.div_mod_to_equations. lia.
  - intros Ho.
    assert (Hday : Day (MakeDay y (m - 1) d * msPerDay + o) = MakeDay y (m - 1) d - 1).
    { unfold Day, msPerDay in *. Z.div_mod_to_equations. lia. }
    split; [exact Hday |].
    intros (Ey & Em & Ed).
    pose proof (MakeDay_fields (MakeDay y (m - 1) d * msPerDay + o)) as F.
    rewrite Ey, Em, Ed, Hday in F. lia.
Qed.

End ReadBack.

(** The birth date of the script, read in UTC and in Newfoundland
    (three and a half hours west, two and a half in summer). *)
Lemma date_only_read_back_witness :
  let date := Date_of_ISO_date 1994 7 2 in
  let west := fun _ : Z => -9000000 in
  (getFullYear UTC date = 1994 /\ getMonth UTC date = 7 - 1 /\ getDate UTC date = 2) /\
  (local_day west date = MakeDay 1994 (7 - 1) 2 - 1 /\
   ~ (getFullYear west date = 1994 /\ getMonth west date = 7 - 1 /\ getDate west date = 2)).
Proof.
  cbv zeta.
  pose proof (date_only_read_back UTC 1994 7 2) as HU.
  pose proof (date_only_read_back (fun _ : Z => -9000000) 1994 7 2) as HW.
  split.
  - apply HU; vm_compute; split; (discriminate || reflexivity).
  - apply HW; vm_compute; split; (discriminate || reflexivity).
Defined.

(** ** More on [durationOfStay]: whole days and longer stays *)

(** An even integer below 2^54 is a binary64 value. *)
Lemma round_to_binary64_even n : Z.even n = true -> round_to_binary64 n = n.
Proof.
  intros He. unfold round_to_binary64.
  destruct (Z.ltb_spec n (2 ^ 53)); [reflexivity |].
  rewrite <- Z.negb_even, He. cbn [negb round_nearest_even].
  apply Z.even_spec in He. destruct He as [k ->].
  rewrite (Z.mul_comm 2 k), Z.div_mul by lia. lia.
Qed.

(** Rounding to binary64 keeps the order. *)
Lemma round_to_binary64_mono n n' :
  0 <= n <= n' -> round_to_binary64 n <= round_to_binary64 n'.
Proof.
  intros H. unfold round_to_binary64.
  pose proof (round_nearest_even_bounds (n / 2)
                (if Z.odd n then loc_Inexact Eq else loc_Exact)) as B.
  pose proof (round_nearest_even_bounds (n' / 2)
                (if Z.odd n' then loc_Inexact Eq else loc_Exact)) as B'.
  change (2 ^ 53) with 9007199254740992.
  destruct (Z.ltb_spec n 9007199254740992), (Z.ltb_spec n' 9007199254740992); try lia.
  - Z.div_mod_to_equations. lia.
  - destruct (Z.eq_dec (n / 2) (n' / 2)) as [E | N].
    + rewrite <- E in *.
      destruct (Z.odd n) eqn:On.
      * assert (n' = n).
        { pose proof (Zmod_odd n) as M. rewrite On in M.
          pose proof (Zmod_odd n') as M'. destruct (Z.odd n');
            Z.div_mod_to_equations; lia. }
        subst n'. rewrite On. lia.
      * cbn [round_nearest_even] in *. lia.
    + assert (n / 2 + 1 <= n' / 2) by (Z.div_mod_to_equations; lia). lia.
Qed.

Lemma ceil_div_mono a b : a <= b -> ceil_div a 86400000 <= ceil_div b 86400000.
Proof. intros. unfold ceil_div. Z.div_mod_to_equations. lia. Qed.

Lemma ceil_div_multiple k : ceil_div (k * 86400000) 86400000 = k.
Proof. unfold ceil_div. rewrite <- Z.mul_opp_l, Z.div_mul by lia. lia. Qed.

(** For two valid dates at midnight UTC (as date-only strings give them),
    [durationOfStay()] is the number of days from one to the other, exactly,
    in whatever order and however far apart. *)
Theorem durationOfStay_whole_days st :
  valid_date (checkInDate (motelCustomer st)) ->
  valid_date (checkOutDate (motelCustomer st)) ->
  DateValue (checkInDate (motelCustomer st)) mod msPerDay = 0 ->
  DateValue (checkOutDate (motelCustomer st)) mod msPerDay = 0 ->
  durationOfStay st
  = (Returned (of_Z (Z.abs (Day (DateValue (checkOutDate (motelCustomer st)))
                            - Day (DateValue (checkInDate (motelCustomer st)))))), st).
Proof.
  intros Hi Ho Mi Mo. rewrite durationOfStay_value by assumption.
  set (i := DateValue (checkInDate (motelCustomer st))) in *.
  set (o := DateValue (checkOutDate (motelCustomer st))) in *.
  assert (Ei : i = Day i * 86400000) by (unfold Day, msPerDay in *; Z.div_mod_to_equations; lia).
  assert (Eo : o = Day o * 86400000) by (unfold Day, msPerDay in *; Z.div_mod_to_equations; lia).
  assert (E : Z.abs (o - i) = Z.abs (Day o - Day i) * 86400000) by lia.
  rewrite E. rewrite round_to_binary64_even.
  - rewrite ceil_div_multiple. reflexivity.
  - rewrite Z.even_mul. apply orb_true_r.
Qed.

(** Of two stays between valid dates, the one that spans more time is not
    counted shorter. *)
Theorem durationOfStay_monotone st st' :
  valid_date (checkInDate (motelCustomer st)) ->
  valid_date (checkOutDate (motelCustomer st)) ->
  valid_date (checkInDate (motelCustomer st')) ->
  valid_date (checkOutDate (motelCustomer st')) ->
  Z.abs (DateValue (checkOutDate (motelCustomer st)) - DateValue (checkInDate (motelCustomer st)))
  <= Z.abs (DateValue (checkOutDate (motelCustomer st'))
            - DateValue (checkInDate (motelCustomer st'))) ->
  exists n n',
    durationOfStay st = (Returned (of_Z n), st) /\
    durationOfStay st' = (Returned (of_Z n'), st') /\
    0 <= n <= n'.
Proof.
  intros Hi Ho Hi' Ho' Hle.
  rewrite (durationOfStay_value st), (durationOfStay_value st') by assumption.
  eexists _, _. split; [reflexivity |]. split; [reflexivity |].
  split.
  - apply ceil_div_nonneg. apply round_to_binary64_bounds.
    pose proof (stay_span _ _ Hi Ho). lia.
  - apply ceil_div_mono. apply round_to_binary64_mono. lia.
Qed.

Lemma durationOfStay_whole_days_witness :
  durationOfStay (initial_store 0 ∅)
  = (Returned (of_Z (Z.abs (Day 1713139200000 - Day 1711929600000))), initial_store 0 ∅).
Proof.
  apply (durationOfStay_whole_days (initial_store 0 ∅));
    vm_compute; try reflexivity; split; discriminate.
Defined.

Lemma durationOfStay_monotone_witness :
  exists n n',
    durationOfStay (mkStore (with_stay (mkDate 0) (mkDate 1)) 0 [] ∅)
    = (Returned (of_Z n), mkStore (with_stay (mkDate 0) (mkDate 1)) 0 [] ∅) /\
    durationOfStay (mkStore (with_stay (mkDate 86400001) (mkDate 0)) 0 [] ∅)
    = (Returned (of_Z n'), mkStore (with_stay (mkDate 86400001) (mkDate 0)) 0 [] ∅) /\
    0 <= n <= n'.
Proof.
  apply (durationOfStay_monotone (mkStore (with_stay (mkDate 0) (mkDate 1)) 0 [] ∅)
           (mkStore (with_stay (mkDate 86400001) (mkDate 0)) 0 [] ∅));
    vm_compute; try split; discriminate.
Defined.

(** ** More on the script: what it touches, how it ends, what it ignores *)

Section ScriptMore.
Variable LocalTZA : Z -> Z.
Variable toLocaleDateString : Date -> string.

(** The assembly of the description writes nothing. *)
Lemma customerDescription_store st :
  snd (customerDescription LocalTZA toLocaleDateString st) = st.
Proof using Type.
  unfold customerDescription, bind, get. cbv beta iota.
  rewrite age_returns. cbv beta iota zeta. rewrite mailingAddress_toString_returns.
  cbv beta iota. unfold durationOfStay, bind, get, ret. cbv beta iota.
  unfold of_option. destruct (Number_toString _); reflexivity.
Qed.


(** On valid dates the script ends in exactly one of two ways: it returns
    when the document has the element, and throws a TypeError when not. *)
Theorem script_throws_iff_missing st :
  valid_date (checkInDate (motelCustomer st)) ->
  valid_date (checkOutDate (motelCustomer st)) ->
  (fst (script LocalTZA toLocaleDateString st) = Returned tt
   <-> is_Some (document st !! "customerInfo"%string)) /\
  (fst (script LocalTZA toLocaleDateString st) = Thrown TypeError
   <-> document st !! "customerInfo"%string = None).
Proof using Type.
  intros Hi Ho.
  destruct (durationOfStay_prints st Hi Ho) as (n & Hn & Hd & Hs).
  pose proof (customerDescription_returns LocalTZA toLocaleDateString st _ n
                (age_returns LocalTZA st) Hd Hs) as Hdesc.
  unfold script, bind. rewrite Hdesc. unfold console_log, set_textContent_by_id.
  cbn [document console motelCustomer clock].
  destruct (document st !! "customerInfo"%string) as [el |] eqn:E; cbn [fst].
  - split; split; try discriminate; eauto.
  - split; split; try discriminate; try reflexivity. intros [? ?]. discriminate.
Qed.

(** The payment method is stored and never used: with another one the
    script ends the same way, with the same console and the same document. *)
Theorem paymentMethod_unused st p :
  let st' := with_guest st (with_paymentMethod (motelCustomer st) p) in
  fst (script LocalTZA toLocaleDateString st') = fst (script LocalTZA toLocaleDateString st) /\
  console (snd (script LocalTZA toLocaleDateString st'))
  = console (snd (script LocalTZA toLocaleDateString st)) /\
  document (snd (script LocalTZA toLocaleDateString st'))
  = document (snd (script LocalTZA toLocaleDateString st)).
Proof using Type.
  cbv zeta. set (st' := with_guest st _).
  assert (R : fst (customerDescription LocalTZA toLocaleDateString st')
              = fst (customerDescription LocalTZA toLocaleDateString st)).
  { unfold customerDescription, bind, get. cbv beta iota.
    rewrite !age_returns. cbv beta iota zeta. rewrite !mailingAddress_toString_returns.
    cbv beta iota. unfold durationOfStay, bind, get, ret. cbv beta iota.
    unfold of_option. subst st'. cbn [with_guest with_paymentMethod motelCustomer clock
      name birthDate gender roomPreferences mailingAddress phoneNumber checkInDate
      checkOutDate]. destruct (Number_toString _); reflexivity. }
  pose proof (customerDescription_store st) as S.
  pose proof (customerDescription_store st') as S'.
  unfold script, bind.
  destruct (customerDescription LocalTZA toLocaleDateString st) as [o st1].
  destruct (customerDescription LocalTZA toLocaleDateString st') as [o' st1'].
  cbn [fst snd] in *. subst st1 st1' o'.
  destruct o as [d | e |]; cbn [fst snd]; try (repeat split; reflexivity).
  unfold console_log, set_textContent_by_id. subst st'.
  cbn [with_guest document console clock motelCustomer].
  destruct (document st !! "customerInfo"%string); repeat split; reflexivity.
Qed.

(** The preferences stand in the description between "with" and the full
    stop. *)
Lemma template_preferences
    (name age gender prefs phone address checkIn checkOut duration : string) :
  contains (spec_template name age gender prefs phone address checkIn checkOut duration)
           (" who prefers rooms with " ++ prefs ++ ". You can reach me at ")%string.
Proof using Type.
  exists ("Hello! I'm " ++ name ++ ", a " ++ age ++ " year old " ++ gender)%string.
  exists (phone ++ ". My mailing address is " ++ address ++ ". I'll be staying from "
          ++ checkIn ++ " to " ++ checkOut ++ ", which is a duration of " ++ duration
          ++ " days.")%string.
  unfold spec_template. rewrite !append_assoc. reflexivity.
Qed.

(** Without room preferences the description still reads, with nothing
    between "with" and the full stop; a single preference stands alone,
    with no separator. *)
Theorem description_of_few_preferences st :
  valid_date (checkInDate (motelCustomer st)) ->
  valid_date (checkOutDate (motelCustomer st)) ->
  (roomPreferences (motelCustomer st) = [] ->
   exists description,
     customerDescription LocalTZA toLocaleDateString st = (Returned description, st) /\
     contains description " who prefers rooms with . You can reach me at ") /\
  (forall p,
      roomPreferences (motelCustomer st) = [p] ->
      exists description,
        customerDescription LocalTZA toLocaleDateString st = (Returned description, st) /\
        contains description
          (" who prefers rooms with " ++ p ++ ". You can reach me at ")%string).
Proof using Type.
  intros Hi Ho.
  destruct (durationOfStay_prints st Hi Ho) as (n & Hn & Hd & Hs).
  pose proof (customerDescription_returns LocalTZA toLocaleDateString st _ n
                (age_returns LocalTZA st) Hd Hs) as Hdesc.
  cbv zeta in Hdesc.
  split.
  - intros Hp. rewrite Hp in Hdesc. eexists. split; [exact Hdesc |].
    exact (template_preferences _ _ _ ""%string _ _ _ _ _).
  - intros p Hp. rewrite Hp in Hdesc. eexists. split; [exact Hdesc |].
    exact (template_preferences _ _ _ p _ _ _ _ _).
Qed.

End ScriptMore.

(** The guest of the script on 1 July 2024 and a year later; next to a guest
    born a day later; on the eve of the birthday and on the birthday. *)
Lemma age_never_falls_witness :
  exists a1 a2,
    age UTC (initial_store 1719792000000 ∅) = (Returned a1, initial_store 1719792000000 ∅) /\
    age UTC (initial_store 1751328000000 ∅) = (Returned a2, initial_store 1751328000000 ∅) /\
    a1 <= a2.
Proof.
  apply (age_never_falls UTC (initial_store 1719792000000 ∅) (initial_store 1751328000000 ∅)).
  - reflexivity.
  - vm_compute. discriminate.
Defined.

Lemma age_older_birth_witness :
  exists a1 a2,
    age UTC (initial_store 1719792000000 ∅) = (Returned a1, initial_store 1719792000000 ∅) /\
    age UTC (mkStore (born_on (Date_of_ISO_date 1994 7 3)) 1719792000000 [] ∅)
    = (Returned a2, mkStore (born_on (Date_of_ISO_date 1994 7 3)) 1719792000000 [] ∅) /\
    a2 <= a1.
Proof.
  apply (age_older_birth UTC (initial_store 1719792000000 ∅)
           (mkStore (born_on (Date_of_ISO_date 1994 7 3)) 1719792000000 [] ∅)).
  - reflexivity.
  - vm_compute. discriminate.
Defined.

Lemma age_one_step_a_day_witness :
  exists a1 a2,
    age UTC (initial_store 1719792000000 ∅) = (Returned a1, initial_store 1719792000000 ∅) /\
    age UTC (initial_store 1719878400000 ∅) = (Returned a2, initial_store 1719878400000 ∅) /\
    (a2 = a1 \/ a2 = a1 + 1).
Proof.
  apply (age_one_step_a_day UTC (initial_store 1719792000000 ∅)
           (initial_store 1719878400000 ∅)).
  - reflexivity.
  - vm_compute. reflexivity.
Defined.


Lemma script_throws_iff_missing_witness :
  fst (script UTC (month_day_year UTC) (initial_store 0 ∅)) = Thrown TypeError /\
  fst (script UTC (month_day_year UTC)
         (initial_store 0 {["customerInfo"%string := mkElement ""%string]}))
  = Returned tt.
Proof.
  split.
  - apply (proj2 (script_throws_iff_missing UTC (month_day_year UTC) (initial_store 0 ∅)
                    ltac:(vm_compute; split; discriminate)
                    ltac:(vm_compute; split; discriminate))).
    reflexivity.
  - apply (proj1 (script_throws_iff_missing UTC (month_day_year UTC)
                    (initial_store 0 {["customerInfo"%string := mkElement ""%string]})
                    ltac:(vm_compute; split; discriminate)
                    ltac:(vm_compute; split; discriminate))).
    exists (mkElement ""%string). reflexivity.
Defined.

(** The guest of the script without room preferences, and with one. *)
Lemma description_of_few_preferences_witness :
  let none := with_guest (initial_store 0 ∅) (with_roomPreferences motelCustomer_literal []) in
  let one :=
    with_guest (initial_store 0 ∅)
      (with_roomPreferences motelCustomer_literal ["Double Bed"%string]) in
  (exists description,
      customerDescription UTC (month_day_year UTC) none = (Returned description, none) /\
      contains description " who prefers rooms with . You can reach me at ") /\
  (exists description,
      customerDescription UTC (month_day_year UTC) one = (Returned description, one) /\
      contains description " who prefers rooms with Double Bed. You can reach me at ").
Proof.
  cbv zeta. split.
  - apply (proj1 (description_of_few_preferences UTC (month_day_year UTC)
                    (with_guest (initial_store 0 ∅)
                       (with_roomPreferences motelCustomer_literal []))
                    ltac:(vm_compute; split; discriminate)
                    ltac:(vm_compute; split; discriminate))).
    reflexivity.
  - apply (proj2 (description_of_few_preferences UTC (month_day_year UTC)
                    (with_guest (initial_store 0 ∅)
                       (with_roomPreferences motelCustomer_literal ["Double Bed"%string]))
                    ltac:(vm_compute; split; discriminate)
                    ltac:(vm_compute; split; discriminate))
             "Double Bed"%string).
    reflexivity.
Defined.
